(** * SEO dashboard client: tool panels, API clients, access gate, checkout

    A shallow embedding of the TypeScript front end.  Asynchronous
    functions are cut at their [await fetch(...)]: the part before it
    builds a [Request], the part after it consumes the settled promise.
    A React component is a state record together with a [step] function
    over the events it can receive (user input and promise settlement). *)

From Stdlib Require Import QArith String Ascii.
From stdpp Require Import gmap strings list fin_maps sorting pretty.

Local Open Scope N_scope.

(** ** JavaScript values *)

Module Js.

(** A JavaScript string is a sequence of UTF-16 code units. *)
Abbreviation jsstring := (list N).

(** An ASCII literal of the source. *)
Definition js (s : string) : jsstring :=
  map N_of_ascii (String.list_ascii_of_string s).

(** [!s] for a string: only the empty string is falsy. *)
Definition truthy_string (s : jsstring) : bool :=
  match s with [] => false | _ :: _ => true end.

(** [a || b] on strings. *)
Definition or_else (a b : jsstring) : jsstring :=
  if truthy_string a then a else b.

(** ECMAScript WhiteSpace and LineTerminator code points, the ones
    [String.prototype.trim] removes; all of them are single code units. *)
Definition is_white_space (c : N) : bool :=
  (9 <=? c) && (c <=? 13)
  || (c =? 32) || (c =? 160) || (c =? 5760)
  || (8192 <=? c) && (c <=? 8202)
  || (c =? 8232) || (c =? 8233) || (c =? 8239) || (c =? 8287)
  || (c =? 12288) || (c =? 65279).

Fixpoint trim_start (s : jsstring) : jsstring :=
  match s with
  | c :: s' => if is_white_space c then trim_start s' else s
  | [] => []
  end.

Definition trim (s : jsstring) : jsstring :=
  reverse (trim_start (reverse (trim_start s))).

Fixpoint starts_with (pat s : jsstring) : bool :=
  match pat, s with
  | [], _ => true
  | p :: pat', c :: s' => (p =? c) && starts_with pat' s'
  | _ :: _, [] => false
  end.

(** [s.includes(pat)] *)
Fixpoint includes (s pat : jsstring) : bool :=
  starts_with pat s ||
  match s with
  | [] => false
  | _ :: s' => includes s' pat
  end.

(** [toLowerCase] on the ASCII letters; exact on the plan names it is
    applied to in this program, which are ASCII. *)
Definition lower_unit (c : N) : N :=
  if (65 <=? c) && (c <=? 90) then c + 32 else c.

Definition toLowerCase (s : jsstring) : jsstring := map lower_unit s.

(** A number decoded from JSON text: a finite double, which is a
    rational, or an infinity (a literal out of the double range).  JSON
    has no NaN. *)
Inductive number :=
  | Finite (q : Q)
  | PosInfinity
  | NegInfinity.

(** [x >= y] *)
Definition ge (x y : number) : bool :=
  match x, y with
  | Finite a, Finite b => Qle_bool b a
  | PosInfinity, _ => true
  | _, NegInfinity => true
  | _, _ => false
  end.

Definition num (z : Z) : number := Finite (inject_Z z).

(** [x < y] *)
Definition lt (x y : number) : bool :=
  match x, y with
  | Finite a, Finite b =>
      match (a ?= b)%Q with Lt => true | _ => false end
  | NegInfinity, Finite _ | NegInfinity, PosInfinity | Finite _, PosInfinity => true
  | _, _ => false
  end.

(** [x === y] on numbers *)
Definition num_eqb (x y : number) : bool :=
  match x, y with
  | Finite a, Finite b => Qeq_bool a b
  | PosInfinity, PosInfinity | NegInfinity, NegInfinity => true
  | _, _ => false
  end.

(** The order of the extended rationals, stated independently of [ge]. *)
Definition num_lt (x y : number) : Prop :=
  match x, y with
  | Finite a, Finite b => (a < b)%Q
  | NegInfinity, Finite _ | NegInfinity, PosInfinity | Finite _, PosInfinity => True
  | _, _ => False
  end.

Definition num_le (x y : number) : Prop :=
  match x, y with
  | Finite a, Finite b => (a <= b)%Q
  | NegInfinity, _ => True
  | _, PosInfinity => True
  | _, _ => False
  end.

#[warnings="-register-all"]
Inductive value :=
  | VUndefined
  | VNull
  | VBool (b : bool)
  | VNumber (n : number)
  | VString (s : jsstring)
  | VArray (elements : list value)
  | VObject (fields : gmap jsstring value).

(** An object as decoded from a JSON body: its own properties. *)
Abbreviation object := (gmap jsstring value).

(** ToBoolean *)
Definition truthy (v : value) : bool :=
  match v with
  | VUndefined | VNull => false
  | VBool b => b
  | VNumber (Finite q) => negb (Qeq_bool q 0)
  | VNumber _ => true
  | VString s => truthy_string s
  | VArray _ | VObject _ => true
  end.

(** [o.k]: a property the object does not have reads as [undefined]. *)
Definition get (o : object) (k : jsstring) : value :=
  default VUndefined (o !! k).

(** The outcome of awaiting a promise: its value, or the [message] of the
    [Error] it rejected with. *)
Inductive Settled (A : Type) :=
  | Fulfilled (a : A)
  | Rejected (message : jsstring).
Arguments Fulfilled {A} a.
Arguments Rejected {A} message.

(** What only the engine that runs the page determines: the text of a
    finite number, the message of the TypeError raised by reading a
    property of [null], and the message of the TypeError raised when an
    object cannot be converted to a primitive. *)
Record Engine := {
  number_text : Q → jsstring;
  null_read_message : jsstring → jsstring;
  convert_message : jsstring
}.

(** [parts.join(sep)] on texts *)
Fixpoint join (sep : jsstring) (parts : list jsstring) : jsstring :=
  match parts with
  | [] => []
  | [s] => s
  | s :: rest => s ++ sep ++ join sep rest
  end.

(** The texts of the parts if every conversion succeeds, else the first
    failure from the left. *)
Fixpoint collect (parts : list (Settled jsstring)) : Settled (list jsstring) :=
  match parts with
  | [] => Fulfilled []
  | Rejected m :: _ => Rejected m
  | Fulfilled s :: rest =>
      match collect rest with
      | Fulfilled ss => Fulfilled (s :: ss)
      | Rejected m => Rejected m
      end
  end.

(** [String(v)] for a value decoded from JSON.  An array prints its
    elements joined by commas, [null] and [undefined] elements as empty
    texts.  An object prints as "[object Object]" through the inherited
    [toString]; when it has a property of that name itself, which as
    JSON data cannot be called, the conversion throws. *)
Fixpoint ToString (E : Engine) (v : value) : Settled jsstring :=
  match v with
  | VUndefined => Fulfilled (js "undefined")
  | VNull => Fulfilled (js "null")
  | VBool b => Fulfilled (if b then js "true" else js "false")
  | VNumber (Finite q) => Fulfilled (number_text E q)
  | VNumber PosInfinity => Fulfilled (js "Infinity")
  | VNumber NegInfinity => Fulfilled (js "-Infinity")
  | VString s => Fulfilled s
  | VArray elements =>
      match collect (map (λ x, match x with
                               | VUndefined | VNull => Fulfilled []
                               | _ => ToString E x
                               end) elements) with
      | Fulfilled parts => Fulfilled (join (js ",") parts)
      | Rejected m => Rejected m
      end
  | VObject fields =>
      match fields !! js "toString" with
      | Some _ => Rejected (convert_message E)
      | None => Fulfilled (js "[object Object]")
      end
  end.

(** [JSON.parse(JSON.stringify(v))]: what a value is after it has been
    sent as JSON.  A property whose value is [undefined] is left out, an
    [undefined] array element and an infinite number become [null];
    [None] stands for a value that is not sent at all. *)
Fixpoint json_value (v : value) : option value :=
  match v with
  | VUndefined => None
  | VNumber (Finite _) => Some v
  | VNumber _ => Some VNull
  | VArray elements =>
      Some (VArray (map (λ x, default VNull (json_value x)) elements))
  | VObject fields => Some (VObject (omap json_value fields))
  | VNull | VBool _ | VString _ => Some v
  end.

End Js.
Import Js.

(** ** fetch *)

Module Fetch.

Record Request := {
  url : jsstring;
  method : jsstring;
  headers : list (jsstring * jsstring);
  (** the value handed to [JSON.stringify] *)
  body : object
}.

(** [res.ok] *)
Definition ok (status : N) : bool := (200 <=? status) && (status <=? 299).

(** The body of a failed request after [res.json()]: any JSON value, in
    the engine that decoded it. *)
Record ErrorBody := { decoded : value; texts : Engine }.

Definition body_type (D : Type) (is_ok : bool) : Type :=
  if is_ok then D else ErrorBody.

(** A response whose success body has the declared result type [D].
    [json] is the outcome of [res.json()]: it rejects when the body is not
    JSON text. *)
Record Response (D : Type) := {
  status : N;
  json : Settled (body_type D (ok status))
}.
Arguments status {D} _.
Arguments json {D} _.

End Fetch.
Import Fetch.

(** [if (!res.ok) { k_fail } ... k_ok]: the branch taken decides at which
    type the body is read. *)
Definition when_ok {D A : Type} (res : Response D)
    (k_ok : Settled D → A) (k_fail : Settled ErrorBody → A) : A :=
  (if ok (status res) as b return Settled (body_type D b) → A
   then k_ok else k_fail) (json res).

(** The decoded body of a successful response, if there is one. *)
Definition payload {D : Type} (res : Response D) : option D :=
  when_ok res
    (fun j => match j with Fulfilled d => Some d | Rejected _ => None end)
    (fun _ => None).

(** The decoded body of a failed response, if there is one. *)
Definition failure {D : Type} (res : Response D) : option ErrorBody :=
  when_ok res
    (fun _ => None)
    (fun j => match j with Fulfilled e => Some e | Rejected _ => None end).

(** The message [res.json()] rejects with when the body is not JSON. *)
Definition parse_error {D : Type} (res : Response D) : option jsstring :=
  when_ok res
    (fun j => match j with Rejected m => Some m | Fulfilled _ => None end)
    (fun j => match j with Rejected m => Some m | Fulfilled _ => None end).

Definition content_type_json : jsstring * jsstring :=
  (js "Content-Type", js "application/json").

(** ** The API client that sends the key with every call
    (src/unnamed/part_001, second document) *)

Module KeyedApi.

Section Env.
(** [process.env.NEXT_PUBLIC_API_URL] *)
Variable NEXT_PUBLIC_API_URL : option jsstring.

Definition API_BASE_URL : jsstring :=
  or_else (default [] NEXT_PUBLIC_API_URL) (js "http://localhost:8002").

Definition post (path : jsstring) (apiKey : jsstring) (b : object) : Request :=
  {| url := API_BASE_URL ++ path;
     method := js "POST";
     headers := [content_type_json; (js "x-api-key", apiKey)];
     body := b |}.

Definition analyzeDomain_request (apiKey domain : jsstring) : Request :=
  post (js "/domain") apiKey {[ js "domain" := VString domain ]}.

Definition researchKeywords_request (apiKey keyword : jsstring) : Request :=
  post (js "/keywords") apiKey {[ js "keyword" := VString keyword ]}.

Definition auditSite_request (apiKey url : jsstring) : Request :=
  post (js "/audit") apiKey {[ js "url" := VString url ]}.

Definition checkout_request (plan email : jsstring) : Request :=
  {| url := API_BASE_URL ++ js "/checkout";
     method := js "POST";
     headers := [content_type_json];
     body := {[ js "plan" := VString plan; js "email" := VString email ]} |}.
End Env.

Definition analyzeDomain {D : Type} (fetched : Settled (Response D)) : Settled D :=
  match fetched with
  | Rejected m => Rejected m
  | Fulfilled res =>
      when_ok res
        (fun j => j)
        (fun _ =>
           if status res =? 401 then Rejected (js "Invalid API Key")
           else if status res =? 429 then Rejected (js "Quota Exceeded")
           else Rejected (js "Analysis failed"))
  end.

Definition researchKeywords (fetched : Settled (Response object)) : Settled object :=
  match fetched with
  | Rejected m => Rejected m
  | Fulfilled res =>
      when_ok res
        (fun j =>
           match j with
           | Rejected m => Rejected m
           | Fulfilled data =>
               Fulfilled (<[ js "difficulty" := get data (js "keyword_difficulty") ]> data)
           end)
        (fun _ => Rejected (js "Research failed"))
  end.

Definition auditSite {D : Type} (fetched : Settled (Response D)) : Settled D :=
  match fetched with
  | Rejected m => Rejected m
  | Fulfilled res =>
      when_ok res (fun j => j) (fun _ => Rejected (js "Audit failed"))
  end.

Definition checkout (fetched : Settled (Response object)) : Settled object :=
  match fetched with
  | Rejected m => Rejected m
  | Fulfilled res =>
      when_ok res (fun j => j) (fun _ => Rejected (js "Checkout failed"))
  end.

(** The rest of [getHistory] after its [await fetch]; the result is a
    list of past results, read at type [D]. *)
Definition getHistory {D : Type} (fetched : Settled (Response D)) : Settled D :=
  match fetched with
  | Rejected m => Rejected m
  | Fulfilled res =>
      when_ok res (fun j => j) (fun _ => Rejected (js "Failed to fetch history"))
  end.

End KeyedApi.

(** ** The API client that forwards the server's [detail]
    (src/unnamed/part_002) *)

Module OpenApi.

Definition API_BASE : jsstring := js "http://localhost:8002".

(** [const headers = {...}; if (apiKey) headers['X-API-Key'] = apiKey] *)
Definition key_headers (apiKey : option jsstring) : list (jsstring * jsstring) :=
  content_type_json ::
  (if truthy_string (default [] apiKey)
   then [(js "X-API-Key", default [] apiKey)] else []).

Definition analyzeDomain_request (domain : jsstring) (apiKey : option jsstring) : Request :=
  {| url := API_BASE ++ js "/domain";
     method := js "POST";
     headers := key_headers apiKey;
     body := {[ js "domain" := VString domain ]} |}.

(** [country] defaults to ['us'] when the argument is left out. *)
Definition researchKeyword_request (keyword : jsstring) (country : option jsstring)
    (apiKey : option jsstring) : Request :=
  {| url := API_BASE ++ js "/keywords";
     method := js "POST";
     headers := key_headers apiKey;
     body := {[ js "keyword" := VString keyword;
                js "country" := VString (default (js "us") country) ]} |}.

Definition auditSite_request (url : jsstring) (apiKey : option jsstring) : Request :=
  {| Fetch.url := API_BASE ++ js "/audit";
     method := js "POST";
     headers := key_headers apiKey;
     body := {[ js "url" := VString url ]} |}.

Definition checkout_request (plan email : jsstring) : Request :=
  {| url := API_BASE ++ js "/checkout";
     method := js "POST";
     headers := [content_type_json];
     body := {[ js "plan" := VString plan; js "email" := VString email ]} |}.

(** [error.detail]: reading a property of [null] throws; an object gives
    its property or [undefined]; a boolean, a number, a string and an
    array have no property of that name.  Decoding JSON never gives
    [undefined]; it is kept with [null]. *)
Definition read_detail (error : ErrorBody) : Settled value :=
  match decoded error with
  | VUndefined | VNull => Rejected (null_read_message (texts error) (js "detail"))
  | VObject fields => Fulfilled (get fields (js "detail"))
  | VBool _ | VNumber _ | VString _ | VArray _ => Fulfilled VUndefined
  end.

(** [const error = await res.json(); throw new Error(error.detail || fallback)]:
    the message of the error is [String] of the argument, and whatever
    is thrown on the way is what the call rejects with. *)
Definition throw_detail {D : Type} (fallback : jsstring) (j : Settled ErrorBody) : Settled D :=
  match j with
  | Rejected m => Rejected m
  | Fulfilled error =>
      match read_detail error with
      | Rejected m => Rejected m
      | Fulfilled d =>
          if truthy d then
            match ToString (texts error) d with
            | Fulfilled text => Rejected text
            | Rejected m => Rejected m
            end
          else Rejected fallback
      end
  end.

Definition analyzeDomain {D : Type} (fetched : Settled (Response D)) : Settled D :=
  match fetched with
  | Rejected m => Rejected m
  | Fulfilled res => when_ok res (fun j => j) (throw_detail (js "Analysis failed"))
  end.

Definition researchKeyword {D : Type} (fetched : Settled (Response D)) : Settled D :=
  match fetched with
  | Rejected m => Rejected m
  | Fulfilled res => when_ok res (fun j => j) (throw_detail (js "Research failed"))
  end.

Definition auditSite {D : Type} (fetched : Settled (Response D)) : Settled D :=
  match fetched with
  | Rejected m => Rejected m
  | Fulfilled res => when_ok res (fun j => j) (throw_detail (js "Audit failed"))
  end.

Definition checkout (fetched : Settled (Response object)) : Settled object :=
  match fetched with
  | Rejected m => Rejected m
  | Fulfilled res => when_ok res (fun j => j) (throw_detail (js "Checkout failed"))
  end.

End OpenApi.

(** ** Result shapes (src/unnamed/part_002) *)

Record DomainAnalysis := {
  domain : jsstring;
  seo_score : number;
  status_code : number;
  load_time_seconds : number;
  has_ssl : bool;
  title : jsstring;
  title_length : number;
  meta_description : jsstring;
  h1_count : number;
  has_canonical : bool;
  has_open_graph : bool;
  has_schema_markup : bool;
  word_count : number;
  issues : list jsstring;
  recommendations : list jsstring
}.

Record AuditCheck := { check : jsstring; check_detail : jsstring }.

Record AuditChecks := {
  checks_passed : list AuditCheck;
  checks_warnings : list AuditCheck;
  checks_issues : list AuditCheck
}.

Record AuditResult := {
  audit_url : jsstring;
  health_score : number;
  passed : number;
  warnings : number;
  issues_count : number;
  checks : AuditChecks
}.

(** ** Tool panels
    (DomainTool.tsx, AuditTool.tsx and the KeywordTool document of
    AuditTool.tsx)

    The three components are one program up to the names of the state
    variable, the API operation and the fallback text; [Tool] collects
    what differs. *)

Module Panel.

Record Tool := {
  (** the type of [data] *)
  Data : Type;
  (** state the component holds besides input, loading, data and error *)
  Aux : Type;
  (** the call made by the submit handler, up to its [await fetch] *)
  request : jsstring → Request;
  (** the rest of that call *)
  operation : Settled (Response Data) → Settled Data;
  (** the text after [err.message ||] *)
  fallback : jsstring
}.

(** The component's [useState] cells, the network calls it has made so
    far and which of them (by position in [calls]) are still pending. *)
Record World (T : Tool) := {
  input : jsstring;
  loading : bool;
  data : option (Data T);
  error : jsstring;
  aux : Aux T;
  calls : list Request;
  inflight : list nat
}.
Arguments input {T} _.
Arguments loading {T} _.
Arguments data {T} _.
Arguments error {T} _.
Arguments aux {T} _.
Arguments calls {T} _.
Arguments inflight {T} _.

Inductive Event (T : Tool) :=
  | Change (s : jsstring)
  | Select (a : Aux T)
  | Click
  | KeyDown (key : jsstring)
  | Settle (id : nat) (fetched : Settled (Response (Data T))).
Arguments Change {T} s.
Arguments Select {T} a.
Arguments Click {T}.
Arguments KeyDown {T} key.
Arguments Settle {T} id fetched.

Section Component.
Context {T : Tool}.

Definition initial (a : Aux T) : World T :=
  {| input := []; loading := false; data := None; error := [];
     aux := a; calls := []; inflight := [] |}.

(** [analyze] / [audit] / [research] up to the [await]. *)
Definition submit (w : World T) : World T :=
  if negb (truthy_string (input w)) then w
  else
    {| input := input w;
       loading := true;
       data := None;
       error := [];
       aux := aux w;
       calls := calls w ++ [request T (input w)];
       inflight := inflight w ++ [length (calls w)] |}.

(** The same function from the [await] on: [try] / [catch] / [finally]. *)
Definition resume (w : World T) (fetched : Settled (Response (Data T))) : World T :=
  match operation T fetched with
  | Fulfilled res =>
      {| input := input w; loading := false; data := Some res;
         error := error w; aux := aux w;
         calls := calls w; inflight := inflight w |}
  | Rejected message =>
      {| input := input w; loading := false; data := data w;
         error := or_else message (fallback T); aux := aux w;
         calls := calls w; inflight := inflight w |}
  end.

Definition forget (id : nat) (w : World T) : World T :=
  {| input := input w; loading := loading w; data := data w;
     error := error w; aux := aux w;
     calls := calls w;
     inflight := filter (λ i, i ≠ id) (inflight w) |}.

Definition step (w : World T) (e : Event T) : World T :=
  match e with
  | Change s =>
      {| input := s; loading := loading w; data := data w;
         error := error w; aux := aux w;
         calls := calls w; inflight := inflight w |}
  | Select a =>
      {| input := input w; loading := loading w; data := data w;
         error := error w; aux := a;
         calls := calls w; inflight := inflight w |}
  | Click =>
      (* the button has [disabled={loading}] *)
      if loading w then w else submit w
  | KeyDown key =>
      (* [e.key === 'Enter' && analyze()] on the input field *)
      if bool_decide (key = js "Enter") then submit w else w
  | Settle id fetched =>
      if bool_decide (id ∈ inflight w) then resume (forget id w) fetched else w
  end.

Definition run (w : World T) (es : list (Event T)) : World T :=
  foldl step w es.

(** What the component renders from its state. *)
Record View := {
  trigger_disabled : bool;
  busy_indicator : bool;
  error_box : option jsstring;
  result_box : option (Data T)
}.

Definition render (w : World T) : View :=
  {| trigger_disabled := loading w;
     busy_indicator := loading w;
     error_box := if truthy_string (error w) then Some (error w) else None;
     result_box := data w |}.

End Component.

End Panel.
Import Panel.

Definition DomainTool : Tool :=
  {| Data := DomainAnalysis;
     Aux := unit;
     request := λ domain, OpenApi.analyzeDomain_request domain None;
     operation := OpenApi.analyzeDomain;
     fallback := js "Analysis failed" |}.

Definition AuditTool : Tool :=
  {| Data := AuditResult;
     Aux := unit;
     request := λ url, OpenApi.auditSite_request url None;
     operation := OpenApi.auditSite;
     fallback := js "Audit failed" |}.

(** [KeywordTool({ apiKey })]; its extra state is the [country] select. *)
Definition KeywordTool (NEXT_PUBLIC_API_URL : option jsstring) (apiKey : jsstring) : Tool :=
  {| Data := object;
     Aux := jsstring;
     request := KeyedApi.researchKeywords_request NEXT_PUBLIC_API_URL apiKey;
     operation := KeyedApi.researchKeywords;
     fallback := js "Research failed" |}.

(** ** The score block of DomainTool and the colours of [MetaItem] *)

Inductive Status := good | warn | bad.

(** [colors] of [MetaItem] *)
Definition colors (s : Status) : jsstring :=
  match s with
  | good => js "text-green"
  | warn => js "text-yellow"
  | bad => js "text-red"
  end.

(** The class chosen for the score:
    [seo_score >= 70 ? 'text-green' : seo_score >= 40 ? 'text-yellow' : 'text-red'] *)
Definition score_class (score : number) : jsstring :=
  if ge score (num 70) then js "text-green"
  else if ge score (num 40) then js "text-yellow"
  else js "text-red".

Record ScoreBlock := { score_color : jsstring; score_text : number }.

(** [{data && (... {data.seo_score} ...)}] *)
Definition render_score (w : World DomainTool) : option ScoreBlock :=
  match data w with
  | Some d => Some {| score_color := score_class (seo_score d);
                      score_text := seo_score d |}
  | None => None
  end.

(** ** Access gate ([Home] in the document after route.ts) *)

Module Gate.

Inductive Tab := tab_domain | tab_keywords | tab_audit.

Record Home := {
  activeTab : Tab;
  apiKey : jsstring;
  isAuthenticated : bool;
  localStorage : gmap jsstring jsstring;
  (** requests sent by the page itself *)
  network : list Request
}.

Definition storage_key : jsstring := js "seo_api_key".

Definition initial (storage : gmap jsstring jsstring) : Home :=
  {| activeTab := tab_domain; apiKey := []; isAuthenticated := false;
     localStorage := storage; network := [] |}.

(** The [useEffect] that runs once after the first render. *)
Definition on_mount (h : Home) : Home :=
  match localStorage h !! storage_key with
  | Some storedKey =>
      if truthy_string storedKey then
        {| activeTab := activeTab h; apiKey := storedKey; isAuthenticated := true;
           localStorage := localStorage h; network := network h |}
      else h
  | None => h
  end.

Definition setApiKey (s : jsstring) (h : Home) : Home :=
  {| activeTab := activeTab h; apiKey := s; isAuthenticated := isAuthenticated h;
     localStorage := localStorage h; network := network h |}.

Definition handleLogin (h : Home) : Home :=
  if truthy_string (trim (apiKey h)) then
    {| activeTab := activeTab h; apiKey := apiKey h; isAuthenticated := true;
       localStorage := <[ storage_key := apiKey h ]> (localStorage h);
       network := network h |}
  else h.

Definition logout (h : Home) : Home :=
  {| activeTab := activeTab h; apiKey := []; isAuthenticated := false;
     localStorage := delete storage_key (localStorage h);
     network := network h |}.

(** Typing [s] into the login form and submitting it. *)
Definition login_with (s : jsstring) (h : Home) : Home :=
  handleLogin (setApiKey s h).

End Gate.

(** ** Pricing with an immediate checkout (Pricing.tsx, lib/pricing.ts) *)

Record Plan := {
  plan_id : jsstring;
  plan_name : jsstring;
  price : N;
  interval : jsstring;
  features : list jsstring
}.

Module Pricing.

Definition SUBSCRIPTION_PLANS : list Plan :=
  [ {| plan_id := js "starter"; plan_name := js "Starter"; price := 29;
       interval := js "month";
       features := [js "10 Domain Analysis/mo"; js "Basic Keyword Research";
                    js "Email Support"] |};
    {| plan_id := js "professional"; plan_name := js "Pro"; price := 79;
       interval := js "month";
       features := [js "Unlimited Domain Analysis"; js "Advanced Keyword Data";
                    js "Site Audits"; js "Priority Support"] |};
    {| plan_id := js "agency"; plan_name := js "Agency"; price := 199;
       interval := js "month";
       features := [js "White Label Reports"; js "API Access";
                    js "Dedicated Account Manager"] |} ].

Record World := {
  (** [loading]: the plan being checked out, or [null] *)
  loading : option jsstring;
  calls : list Request;
  inflight : list nat;
  (** the value last assigned to [window.location.href], if any *)
  href : option value;
  (** the messages of the errors passed to [console.error] *)
  console : list jsstring;
  (** the texts passed to [alert] *)
  alerts : list jsstring
}.

Inductive Event :=
  | ClickPlan (index : nat)
  | Settle (id : nat) (fetched : Settled (Response object)).

Section Component.
Variable NEXT_PUBLIC_API_URL : option jsstring.

Definition initial : World :=
  {| loading := None; calls := []; inflight := []; href := None;
     console := []; alerts := [] |}.

(** [handleCheckout] up to the [await]. *)
Definition handleCheckout (planId : jsstring) (w : World) : World :=
  {| loading := Some planId;
     calls := calls w ++
       [KeyedApi.checkout_request NEXT_PUBLIC_API_URL planId (js "user@example.com")];
     inflight := inflight w ++ [length (calls w)];
     href := href w; console := console w; alerts := alerts w |}.

(** [handleCheckout] from the [await] on. *)
Definition resume (w : World) (fetched : Settled (Response object)) : World :=
  match KeyedApi.checkout fetched with
  | Fulfilled result =>
      {| loading := None; calls := calls w; inflight := inflight w;
         href := if truthy (get result (js "checkout_url"))
                 then Some (get result (js "checkout_url")) else href w;
         console := console w; alerts := alerts w |}
  | Rejected message =>
      {| loading := None; calls := calls w; inflight := inflight w;
         href := href w;
         console := console w ++ [message]; alerts := alerts w |}
  end.

Definition forget (id : nat) (w : World) : World :=
  {| loading := loading w; calls := calls w;
     inflight := filter (λ i, i ≠ id) (inflight w);
     href := href w; console := console w; alerts := alerts w |}.

Definition step (w : World) (e : Event) : World :=
  match e with
  | ClickPlan index =>
      match SUBSCRIPTION_PLANS !! index with
      | Some plan =>
          (* [disabled={loading === plan.id}] *)
          if bool_decide (loading w = Some (plan_id plan)) then w
          else handleCheckout (plan_id plan) w
      | None => w
      end
  | Settle id fetched =>
      if bool_decide (id ∈ inflight w) then resume (forget id w) fetched else w
  end.

End Component.

End Pricing.

(** ** Pricing with a confirmation dialog (src/unnamed/part_003) *)

Module PricingModal.

(** The [name] of each entry of [plans]; the other fields are only
    rendered. *)
Definition plans : list jsstring :=
  [js "Starter"; js "Professional"; js "Agency"].

Record World := {
  selectedPlan : jsstring;
  isModalOpen : bool;
  email : jsstring;
  loading : bool;
  calls : list Request;
  inflight : list nat;
  href : option value;
  console : list jsstring;
  alerts : list jsstring
}.

Inductive Event :=
  | GetStarted (index : nat)
  | CloseModal
  | ChangeEmail (s : jsstring)
  | Continue
  | Settle (id : nat) (fetched : Settled (Response object)).

Definition initial : World :=
  {| selectedPlan := []; isModalOpen := false; email := []; loading := false;
     calls := []; inflight := []; href := None; console := []; alerts := [] |}.

Definition openModal (planName : jsstring) (w : World) : World :=
  {| selectedPlan := planName; isModalOpen := true; email := email w;
     loading := loading w; calls := calls w; inflight := inflight w;
     href := href w; console := console w; alerts := alerts w |}.

Definition setIsModalOpen (b : bool) (w : World) : World :=
  {| selectedPlan := selectedPlan w; isModalOpen := b; email := email w;
     loading := loading w; calls := calls w; inflight := inflight w;
     href := href w; console := console w; alerts := alerts w |}.

Definition setEmail (s : jsstring) (w : World) : World :=
  {| selectedPlan := selectedPlan w; isModalOpen := isModalOpen w; email := s;
     loading := loading w; calls := calls w; inflight := inflight w;
     href := href w; console := console w; alerts := alerts w |}.

(** [handleCheckout] up to the [await], or to its early [return]. *)
Definition handleCheckout (w : World) : World :=
  if negb (truthy_string (email w)) || negb (includes (email w) (js "@")) then
    {| selectedPlan := selectedPlan w; isModalOpen := isModalOpen w;
       email := email w; loading := loading w;
       calls := calls w; inflight := inflight w;
       href := href w; console := console w;
       alerts := alerts w ++ [js "Please enter a valid email"] |}
  else
    {| selectedPlan := selectedPlan w; isModalOpen := isModalOpen w;
       email := email w; loading := true;
       calls := calls w ++
         [OpenApi.checkout_request (toLowerCase (selectedPlan w)) (email w)];
       inflight := inflight w ++ [length (calls w)];
       href := href w; console := console w; alerts := alerts w |}.

(** [handleCheckout] from the [await] on. *)
Definition resume (w : World) (fetched : Settled (Response object)) : World :=
  match OpenApi.checkout fetched with
  | Fulfilled res =>
      {| selectedPlan := selectedPlan w; isModalOpen := isModalOpen w;
         email := email w; loading := false;
         calls := calls w; inflight := inflight w;
         href := if truthy (get res (js "checkout_url"))
                 then Some (get res (js "checkout_url")) else href w;
         console := console w; alerts := alerts w |}
  | Rejected message =>
      {| selectedPlan := selectedPlan w; isModalOpen := isModalOpen w;
         email := email w; loading := false;
         calls := calls w; inflight := inflight w;
         href := href w; console := console w;
         alerts := alerts w ++ [js "Checkout failed: " ++ message] |}
  end.

Definition forget (id : nat) (w : World) : World :=
  {| selectedPlan := selectedPlan w; isModalOpen := isModalOpen w;
     email := email w; loading := loading w;
     calls := calls w; inflight := filter (λ i, i ≠ id) (inflight w);
     href := href w; console := console w; alerts := alerts w |}.

Definition step (w : World) (e : Event) : World :=
  match e with
  | GetStarted index =>
      match plans !! index with
      | Some name => openModal name w
      | None => w
      end
  | CloseModal => setIsModalOpen false w
  | ChangeEmail s =>
      (* the field exists only while the dialog is rendered *)
      if isModalOpen w then setEmail s w else w
  | Continue =>
      (* rendered inside the dialog, with [disabled={loading}] *)
      if isModalOpen w && negb (loading w) then handleCheckout w else w
  | Settle id fetched =>
      if bool_decide (id ∈ inflight w) then resume (forget id w) fetched else w
  end.

End PricingModal.

(** The body the bundled checkout route answers with on success, as the
    client decodes it:
    [NextResponse.json({ sessionId: session.id, url: session.url })]
    sends the object as JSON. *)
Definition route_POST_body (session_id session_url : value) : object :=
  omap json_value
    ({[ js "sessionId" := session_id; js "url" := session_url ]} : object).

(** ** What the audit and keyword panels render
    (AuditTool.tsx and its KeywordTool document) *)

(** The class of the health score:
    [health_score >= 80 ? 'text-green' : health_score >= 50 ? 'text-yellow' : 'text-red'] *)
Definition health_class (score : number) : jsstring :=
  if ge score (num 80) then js "text-green"
  else if ge score (num 50) then js "text-yellow"
  else js "text-red".

(** [getDifficultyColor] of KeywordTool *)
Definition getDifficultyColor (score : number) : jsstring :=
  if lt score (num 35) then js "text-green"
  else if lt score (num 60) then js "text-yellow"
  else js "text-red".

(** The [type] prop of [AuditItem]. *)
Inductive ItemType := item_error | item_warn | item_pass.

#[global] Instance ItemType_eq_dec : EqDecision ItemType.
Proof. solve_decision. Defined.

(** Errors first, then warnings, then passed checks. *)
Definition severity (t : ItemType) : nat :=
  match t with item_error => 0 | item_warn => 1 | item_pass => 2 end.

Record AuditItem := {
  item_type : ItemType;
  item_check : jsstring;
  item_detail : jsstring
}.

Definition audit_item (t : ItemType) (c : AuditCheck) : AuditItem :=
  {| item_type := t; item_check := check c; item_detail := check_detail c |}.

(** The three [map]s of the result list, in the order they are written. *)
Definition render_checks (r : AuditResult) : list AuditItem :=
  map (audit_item item_error) (checks_issues (checks r))
  ++ map (audit_item item_warn) (checks_warnings (checks r))
  ++ map (audit_item item_pass) (checks_passed (checks r)).

(** The header line of the audit result: the three counters are the
    numbers of the response. *)
Record AuditHeader := {
  header_class : jsstring;
  header_score : number;
  header_passed : number;
  header_warnings : number;
  header_issues : number
}.

Definition render_audit_header (r : AuditResult) : AuditHeader :=
  {| header_class := health_class (health_score r);
     header_score := health_score r;
     header_passed := passed r;
     header_warnings := warnings r;
     header_issues := issues_count r |}.

(** ** The six [MetaItem] rows of the domain panel (DomainTool.tsx) *)

(** What a row shows: a text, or a number followed by a fixed suffix
    (the template [`${n} chars`]). *)
Inductive MetaValue :=
  | Text (s : jsstring)
  | Counted (n : number) (suffix : jsstring).

Record MetaItem := {
  meta_label : jsstring;
  meta_value : MetaValue;
  meta_status : Status;
  meta_truncate : bool
}.

Definition present_or_missing (b : bool) : jsstring :=
  if b then js "Present" else js "Missing".

Definition meta_items (d : DomainAnalysis) : list MetaItem :=
  [ {| meta_label := js "Title Tag";
       meta_value := Text (or_else (title d) (js "Missing"));
       meta_status := if truthy_string (title d) then good else bad;
       meta_truncate := false |};
    {| meta_label := js "Title Length";
       meta_value := Counted (title_length d) (js " chars");
       meta_status :=
         if ge (title_length d) (num 10) && ge (num 70) (title_length d)
         then good else warn;
       meta_truncate := false |};
    {| meta_label := js "Meta Description";
       meta_value := Text (or_else (meta_description d) (js "Missing"));
       meta_status := if truthy_string (meta_description d) then good else bad;
       meta_truncate := true |};
    {| meta_label := js "H1 Count";
       meta_value := Counted (h1_count d) (js " found");
       meta_status := if num_eqb (h1_count d) (num 1) then good else bad;
       meta_truncate := false |};
    {| meta_label := js "Open Graph";
       meta_value := Text (present_or_missing (has_open_graph d));
       meta_status := if has_open_graph d then good else warn;
       meta_truncate := false |};
    {| meta_label := js "Schema Markup";
       meta_value := Text (present_or_missing (has_schema_markup d));
       meta_status := if has_schema_markup d then good else warn;
       meta_truncate := false |} ].

(** Equality of numbers as values, stated independently of [num_eqb]. *)
Definition num_eq (x y : number) : Prop :=
  match x, y with
  | Finite a, Finite b => (a == b)%Q
  | PosInfinity, PosInfinity | NegInfinity, NegInfinity => True
  | _, _ => False
  end.

(** ** The access gate as a machine: what the user can do on [Home] *)

Module GateMachine.
Import Gate.

Inductive Event :=
  | TypeKey (s : jsstring)
  | Submit
  | Logout
  | SelectTab (t : Tab).

Definition setActiveTab (t : Tab) (h : Home) : Home :=
  {| activeTab := t; apiKey := apiKey h; isAuthenticated := isAuthenticated h;
     localStorage := localStorage h; network := network h |}.

(** The login form exists only while [!isAuthenticated]; the tabs and the
    logout button exist only in the dashboard. *)
Definition step (h : Home) (e : Event) : Home :=
  match e with
  | TypeKey s => if isAuthenticated h then h else setApiKey s h
  | Submit => if isAuthenticated h then h else handleLogin h
  | Logout => if isAuthenticated h then logout h else h
  | SelectTab t => if isAuthenticated h then setActiveTab t h else h
  end.

(** Loading the page with [storage] in the browser, then the events. *)
Definition visit (storage : gmap jsstring jsstring) (es : list Event) : Home :=
  foldl step (on_mount (Gate.initial storage)) es.

End GateMachine.

(** ** The checkout route (route.ts, [POST]) *)

Module Route.

(** The argument of [stripe.checkout.sessions.create]. *)
Record SessionParams := {
  payment_method_types : list jsstring;
  (** [price] and [quantity] of each item *)
  line_items : list (value * N);
  mode : jsstring;
  success_url : jsstring;
  cancel_url : jsstring;
  customer_email : value
}.

Record Session := { session_id : value; session_url : value }.

Record NextResponse := { response_status : N; response_body : object }.

(** A template literal prints a missing header ([null]) as "null". *)
Definition template (origin : option jsstring) : jsstring :=
  default (js "null") origin.

Definition session_params (req_body : object) (origin : option jsstring) : SessionParams :=
  {| payment_method_types := [js "card"];
     line_items := [(get req_body (js "priceId"), 1)];
     mode := js "subscription";
     success_url := template origin ++ js "/?success=true";
     cancel_url := template origin ++ js "/?canceled=true";
     customer_email := get req_body (js "email") |}.

(** [POST]: [req_json] is the outcome of [req.json()], [origin] the
    request's Origin header, [create] the Stripe call. *)
Definition POST (req_json : Settled object) (origin : option jsstring)
    (create : SessionParams → Settled Session) : NextResponse :=
  match req_json with
  | Rejected m =>
      {| response_status := 500; response_body := {[ js "error" := VString m ]} |}
  | Fulfilled req_body =>
      match create (session_params req_body origin) with
      | Fulfilled session =>
          {| response_status := 200;
             response_body :=
               route_POST_body (session_id session) (session_url session) |}
      | Rejected m =>
          {| response_status := 500;
             response_body := {[ js "error" := VString m ]} |}
      end
  end.

End Route.

(** ** Scenarios and sample values *)

Module Scenario.

(** Two submissions of one panel: a click, then Enter on the (possibly
    edited) input while the first call is pending; the second call
    settles first. *)
Definition race {T : Tool} (w : World T) (second_input : jsstring)
    (first second : Settled (Response (Data T))) : World T :=
  run w [ Click; Change second_input; KeyDown (js "Enter");
          Settle (S (length (Panel.calls w))) second;
          Settle (length (Panel.calls w)) first ].

(** The panel displays the outcome of one call and nothing else. *)
Definition shows {T : Tool} (w : World T) (outcome : Settled (Data T)) : Prop :=
  match outcome with
  | Fulfilled d => data w = Some d ∧ error w = []
  | Rejected m => data w = None ∧ error w = or_else m (fallback T)
  end.

(** A 200 response with body [d]. *)
Definition success {D : Type} (d : D) : Response D :=
  {| status := 200; json := Fulfilled (d : body_type D (ok 200)) |}.

(** The texts of one engine.  Its [number_text] prints integers, which
    is right below 10^21 in size; no sample puts another number in an
    error body. *)
Definition engine : Engine :=
  {| number_text := λ q, js (pretty (Qnum q `div` Zpos (Qden q))%Z);
     null_read_message := λ p,
       js "Cannot read properties of null (reading '" ++ p ++ js "')";
     convert_message := js "Cannot convert object to primitive value" |}.

(** A 401 response with the JSON body [v]. *)
Definition unauthorized_with {D : Type} (v : value) : Response D :=
  {| status := 401;
     json := Fulfilled
       ({| decoded := v; texts := engine |} : body_type D (ok 401)) |}.

(** A 401 response with body [{detail: message}], or [{}] for [None]. *)
Definition unauthorized {D : Type} (message : option jsstring) : Response D :=
  unauthorized_with
    (VObject match message with
             | Some m => {[ js "detail" := VString m ]}
             | None => ∅
             end).

Definition analysis (score : Z) : DomainAnalysis :=
  {| domain := js "example.com"; seo_score := num score;
     status_code := num 200; load_time_seconds := Finite (3 # 10);
     has_ssl := true; title := js "Example Domain"; title_length := num 14;
     meta_description := []; h1_count := num 1;
     has_canonical := false; has_open_graph := false;
     has_schema_markup := false; word_count := num 30;
     issues := [js "Missing meta description"];
     recommendations := [js "Add a meta description"] |}.

(** A /keywords body. *)
Definition keyword_body : object :=
  {[ js "keyword" := VString (js "ai tools");
     js "monthly_volume" := VNumber (num 1200);
     js "keyword_difficulty" := VNumber (num 42) ]}.

(** A /checkout body [{checkout_url}]. *)
Definition checkout_body (checkout_url : value) : object :=
  {[ js "checkout_url" := checkout_url ]}.

(** The pricing page after a click on the first plan. *)
Definition checking_out (env : option jsstring) : Pricing.World :=
  Pricing.step env Pricing.initial (Pricing.ClickPlan 0).

(** The dialog after choosing the first plan, typing [address] and
    pressing the continue button. *)
Definition confirming (address : jsstring) : PricingModal.World :=
  foldl PricingModal.step PricingModal.initial
    [ PricingModal.GetStarted 0; PricingModal.ChangeEmail address;
      PricingModal.Continue ].

(** A response with the given status whose body is not JSON: [res.json()]
    rejects with [message]. *)
Definition unparsable {D : Type} (code : N) (message : jsstring) : Response D :=
  {| status := code; json := Rejected message |}.

(** A panel in which [s] has been typed. *)
Definition typed {T : Tool} (a : Aux T) (s : jsstring) : World T :=
  step (Panel.initial a) (Change s).

End Scenario.

(** ** What a failed call of the detail-forwarding client reports *)

(** [outcome] is what the client reports for the failed response [res]
    when [generic] is the operation's own text: the parser's message for
    a body that is not JSON; the TypeError's message for the body
    [null]; for an object, [String] of its [detail] when that is truthy
    (the detail itself when it is a non-empty string, the TypeError's
    message when the conversion throws) and [generic] when it is falsy
    or missing; [generic] for every other body. *)
Definition reports_detail {D : Type} (res : Response D) (generic : jsstring)
    (outcome : Settled D) : Prop :=
  (∀ m, parse_error res = Some m → outcome = Rejected m)
  ∧ (∀ e, failure res = Some e → decoded e = VNull →
       outcome = Rejected (null_read_message (texts e) (js "detail")))
  ∧ (∀ e fields s, failure res = Some e → decoded e = VObject fields →
       fields !! js "detail" = Some (VString s) → s ≠ [] →
       outcome = Rejected s)
  ∧ (∀ e fields d, failure res = Some e → decoded e = VObject fields →
       fields !! js "detail" = Some d → truthy d = true →
       (∀ text, ToString (texts e) d = Fulfilled text → outcome = Rejected text)
       ∧ (∀ m, ToString (texts e) d = Rejected m → outcome = Rejected m))
  ∧ (∀ e fields, failure res = Some e → decoded e = VObject fields →
       truthy (get fields (js "detail")) = false →
       outcome = Rejected generic)
  ∧ (∀ e, failure res = Some e →
       decoded e ≠ VNull → decoded e ≠ VUndefined →
       (∀ fields, decoded e ≠ VObject fields) →
       outcome = Rejected generic).

(** ** Invariants of the components *)

(** What a panel satisfies as long as Enter is not used to submit: at
    most one call is pending, and the busy state says whether one is. *)
Definition orderly {T : Tool} (w : World T) : Prop :=
  (length (Panel.inflight w) ≤ 1)%nat
  ∧ (Panel.loading w = true ↔ Panel.inflight w ≠ []).

(** Every call a panel has made is its API call for some non-empty input. *)
Definition well_sent {T : Tool} (w : World T) : Prop :=
  Forall (λ r, ∃ s, s ≠ [] ∧ r = request T s) (Panel.calls w).

(** A change of the panel's extra state (the country of KeywordTool). *)
Definition is_select {T : Tool} (e : Event T) : bool :=
  match e with Select _ => true | _ => false end.

(** Two panels that differ at most in their extra state. *)
Definition alike {T : Tool} (w w' : World T) : Prop :=
  input w = input w'
  ∧ Panel.loading w = Panel.loading w'
  ∧ data w = data w'
  ∧ error w = error w'
  ∧ Panel.calls w = Panel.calls w'
  ∧ Panel.inflight w = Panel.inflight w'.

(** The page and the browser storage agree: while authenticated, the key
    in use is the stored one and is not empty; otherwise no usable key is
    stored. *)
Definition in_sync (h : Gate.Home) : Prop :=
  if Gate.isAuthenticated h
  then Gate.localStorage h !! Gate.storage_key = Some (Gate.apiKey h)
       ∧ Gate.apiKey h ≠ []
  else Gate.localStorage h !! Gate.storage_key = None
       ∨ Gate.localStorage h !! Gate.storage_key = Some [].

(** The dialog variant of the pricing section keeps this whatever
    happens: at most one checkout is pending, the dialog is busy exactly
    while one is, an open dialog is for a plan of the list, and every
    call made was for such a plan and an address with an @. *)
Definition modal_orderly (w : PricingModal.World) : Prop :=
  (length (PricingModal.inflight w) ≤ 1)%nat
  ∧ (PricingModal.loading w = true ↔ PricingModal.inflight w ≠ [])
  ∧ (PricingModal.isModalOpen w = true →
     PricingModal.selectedPlan w ∈ PricingModal.plans)
  ∧ Forall (λ r, ∃ name address,
                name ∈ PricingModal.plans ∧ 64 ∈ address
                ∧ r = OpenApi.checkout_request (toLowerCase name) address)
      (PricingModal.calls w).

(** * Properties *)

(** ** Reading a response *)

Lemma when_ok_payload {D A : Type} (res : Response D) (d : D)
    (k_ok : Settled D → A) (k_fail : Settled ErrorBody → A) :
  payload res = Some d → when_ok res k_ok k_fail = k_ok (Fulfilled d).
Proof.
  destruct res as [s j]. unfold payload, when_ok. simpl.
  revert j. destruct (ok s); simpl; intros j H; [|discriminate].
  destruct j; [|discriminate]. by inversion H.
Qed.

Lemma when_ok_failure {D A : Type} (res : Response D) (e : ErrorBody)
    (k_ok : Settled D → A) (k_fail : Settled ErrorBody → A) :
  failure res = Some e → when_ok res k_ok k_fail = k_fail (Fulfilled e).
Proof.
  destruct res as [s j]. unfold failure, when_ok. simpl.
  revert j. destruct (ok s); simpl; intros j H; [discriminate|].
  destruct j; [|discriminate]. by inversion H.
Qed.

Lemma when_ok_not_ok {D A : Type} (res : Response D)
    (k_ok : Settled D → A) (a : A) :
  ok (status res) = false → when_ok res k_ok (λ _, a) = a.
Proof.
  destruct res as [s j]. unfold when_ok. simpl.
  revert j. by destruct (ok s).
Qed.

Lemma when_ok_parse_error {D A : Type} (res : Response D) (m : jsstring)
    (k_ok : Settled D → A) (k_fail : Settled ErrorBody → A) :
  parse_error res = Some m →
  when_ok res k_ok k_fail
    = if ok (status res) then k_ok (Rejected m) else k_fail (Rejected m).
Proof.
  destruct res as [s j]. unfold parse_error, when_ok. simpl.
  revert j. destruct (ok s); simpl; intros j H;
    (destruct j; [discriminate|]); by inversion H.
Qed.

(** ** Strings *)

Lemma or_else_truthy (a b : jsstring) :
  truthy_string b = true → truthy_string (or_else a b) = true.
Proof. unfold or_else. by destruct a. Qed.

Lemma or_else_idem (a b : jsstring) :
  truthy_string b = true → or_else (or_else a b) b = or_else a b.
Proof. unfold or_else. by destruct a, b. Qed.

Lemma truthy_string_nonempty (s : jsstring) : truthy_string s = true ↔ s ≠ [].
Proof. by destruct s. Qed.

(** ** Numbers *)

Lemma ge_true_iff (x y : number) : ge x y = true ↔ num_le y x.
Proof.
  destruct x, y; simpl; try tauto; try (split; [done | discriminate || done]).
  apply Qle_bool_iff.
Qed.

Lemma ge_false_iff (x y : number) : ge x y = false ↔ num_lt x y.
Proof.
  destruct x as [a| |], y as [b| |]; simpl;
    try (split; [discriminate || done | done]).
  rewrite <- not_true_iff_false, Qle_bool_iff. split.
  - apply Qnot_le_lt.
  - apply Qlt_not_le.
Qed.

(** ** Tool panels *)

Section PanelFacts.
Context {T : Tool}.
Implicit Types w : World T.

Lemma submit_empty w : input w = [] → submit w = w.
Proof. unfold submit. by intros ->. Qed.

Lemma submit_nonempty w :
  input w ≠ [] →
  submit w =
    {| input := input w; loading := true; data := None; error := [];
       aux := aux w;
       calls := Panel.calls w ++ [request T (input w)];
       inflight := Panel.inflight w ++ [length (Panel.calls w)] |}.
Proof. unfold submit. by destruct (input w). Qed.

Lemma click_while_loading w : Panel.loading w = true → step w Click = w.
Proof. simpl. by intros ->. Qed.

Lemma enter_submits w : step w (KeyDown (js "Enter")) = submit w.
Proof. done. Qed.

Lemma settle_pending w id fetched :
  id ∈ Panel.inflight w →
  step w (Panel.Settle id fetched) = Panel.resume (Panel.forget id w) fetched.
Proof. intros H. simpl. by rewrite bool_decide_eq_true_2. Qed.

Lemma resume_rejected w fetched m :
  operation T fetched = Rejected m →
  error (Panel.resume w fetched) = or_else m (fallback T)
  ∧ data (Panel.resume w fetched) = data w
  ∧ Panel.loading (Panel.resume w fetched) = false.
Proof. unfold Panel.resume. by intros ->. Qed.

Lemma resume_fulfilled w fetched d :
  operation T fetched = Fulfilled d →
  data (Panel.resume w fetched) = Some d
  ∧ error (Panel.resume w fetched) = error w
  ∧ Panel.loading (Panel.resume w fetched) = false.
Proof. unfold Panel.resume. by intros ->. Qed.

End PanelFacts.

(** C4. On every panel, a click on the button or Enter in the field
    while the input is the empty string leaves the whole component as it
    was (input, loading, data, error and the rest) and sends nothing. *)
Theorem empty_input_is_ignored (T : Tool) (w : World T) (e : Event T) :
  input w = [] →
  e = Click ∨ e = KeyDown (js "Enter") →
  step w e = w ∧ Panel.calls (step w e) = Panel.calls w.
Proof.
  intros Hin [-> | ->].
  - simpl. rewrite (submit_empty w Hin). by destruct (Panel.loading w).
  - rewrite enter_submits, (submit_empty w Hin). done.
Qed.

Lemma empty_input_is_ignored_witness :
  step (Panel.initial (T:=DomainTool) ()) (KeyDown (js "Enter"))
    = Panel.initial (T:=DomainTool) ()
  ∧ Panel.calls (step (Panel.initial (T:=DomainTool) ()) (KeyDown (js "Enter")))
    = [].
Proof.
  apply (empty_input_is_ignored DomainTool (Panel.initial (T:=DomainTool) ())
           (KeyDown (js "Enter"))).
  - reflexivity.
  - right. reflexivity.
Defined.

(** Enter in the input field submits whatever [loading] is: only the
    button reads it. *)
Lemma enter_bypasses_disabled_button (T : Tool) (w : World T) :
  Panel.loading w = true →
  input w ≠ [] →
  step w Click = w
  ∧ Panel.inflight (step w (KeyDown (js "Enter")))
    = Panel.inflight w ++ [length (Panel.calls w)]
  ∧ Panel.calls (step w (KeyDown (js "Enter")))
    = Panel.calls w ++ [request T (input w)].
Proof.
  intros Hl Hin. split; [by apply click_while_loading|].
  by rewrite enter_submits, (submit_nonempty w Hin).
Qed.

(** C2. The domain panel with "example.com" typed and one request
    pending: the button is disabled and a click does nothing, yet Enter
    in the input field sends a second request while the first is still
    pending. *)
Theorem enter_while_loading_sends_second_request :
  let w1 := step (Scenario.typed (T:=DomainTool) () (js "example.com")) Click in
  let w2 := step w1 (KeyDown (js "Enter")) in
  Panel.loading w1 = true
  ∧ trigger_disabled (render w1) = true
  ∧ Panel.inflight w1 = [0%nat]
  ∧ step w1 Click = w1
  ∧ Panel.inflight w2 = [0%nat; 1%nat]
  ∧ length (Panel.calls w2) = 2%nat.
Proof. repeat split. Qed.

(** ** Two overlapping submissions *)

Lemma race_unfold (T : Tool) (w : World T) (s2 : jsstring)
    (first second : Settled (Response (Data T))) :
  Panel.loading w = false →
  input w ≠ [] →
  s2 ≠ [] →
  Scenario.race w s2 first second =
    Panel.resume
      (Panel.forget (length (Panel.calls w))
        (Panel.resume
          (Panel.forget (S (length (Panel.calls w)))
            (submit (step (submit w) (Change s2))))
          second))
      first.
Proof.
  intros Hl Hin Hs2.
  unfold Scenario.race, run. cbn [foldl].
  assert (step w Click = submit w) as -> by (simpl; by rewrite Hl).
  rewrite enter_submits.
  set (w2 := submit (step (submit w) (Change s2))).
  assert (Panel.inflight w2 =
          Panel.inflight w ++ [length (Panel.calls w)] ++ [S (length (Panel.calls w))])
    as Hinfl.
  { unfold w2. rewrite submit_nonempty by done. simpl.
    rewrite (submit_nonempty w Hin). simpl.
    rewrite length_app, <- app_assoc. simpl. do 3 f_equal. lia. }
  rewrite (settle_pending w2 (S (length (Panel.calls w))) second)
    by (rewrite Hinfl; set_solver).
  rewrite settle_pending; [done|].
  assert (∀ (w' : World T) r,
            Panel.inflight (Panel.resume w' r) = Panel.inflight w') as Hres.
  { intros w' r. unfold Panel.resume. by destruct (operation T r). }
  rewrite Hres. simpl. rewrite Hinfl.
  apply list_elem_of_filter. split; [lia|set_solver].
Qed.

(** C3 as stated fails: the first response, arriving last, replaces the
    newer result (score 85) by the stale one (score 10). *)
Lemma stale_response_overwrites_newer :
  let final :=
    Scenario.race (Scenario.typed (T:=DomainTool) () (js "example.com"))
      (js "example.org")
      (Fulfilled (Scenario.success (Scenario.analysis 10)))
      (Fulfilled (Scenario.success (Scenario.analysis 85))) in
  data final = Some (Scenario.analysis 10)
  ∧ ¬ Scenario.shows final
        (operation DomainTool (Fulfilled (Scenario.success (Scenario.analysis 85)))).
Proof.
  split; [reflexivity|].
  intros [H _]. vm_compute in H. discriminate H.
Qed.

(** C3, amended. After two overlapping submissions whose first response
    arrives last, the panel is idle and shows the completions applied in
    order of arrival: the first call's outcome is written last (its body
    into [data] when it succeeded, its message into [error] when it
    failed) and the field it does not write keeps what the second call's
    outcome left there. *)
Theorem race_applies_completions_in_arrival_order (T : Tool) (w : World T)
    (s2 : jsstring) (first second : Settled (Response (Data T))) :
  Panel.loading w = false →
  input w ≠ [] →
  s2 ≠ [] →
  let final := Scenario.race w s2 first second in
  Panel.loading final = false
  ∧ input final = s2
  ∧ data final =
      match operation T first, operation T second with
      | Fulfilled d1, _ => Some d1
      | Rejected _, Fulfilled d2 => Some d2
      | Rejected _, Rejected _ => None
      end
  ∧ error final =
      match operation T first, operation T second with
      | Rejected m1, _ => or_else m1 (fallback T)
      | Fulfilled _, Rejected m2 => or_else m2 (fallback T)
      | Fulfilled _, Fulfilled _ => []
      end.
Proof.
  intros Hl Hin Hs2 final. unfold final.
  rewrite race_unfold by done.
  rewrite (submit_nonempty (step (submit w) (Change s2))) by done.
  unfold Panel.resume.
  destruct (operation T first), (operation T second); done.
Qed.

Lemma race_applies_completions_in_arrival_order_witness :
  let final :=
    Scenario.race (Scenario.typed (T:=DomainTool) () (js "example.com"))
      (js "example.org")
      (Fulfilled (Scenario.unauthorized (Some (js "first"))))
      (Fulfilled (Scenario.success (Scenario.analysis 85))) in
  Panel.loading final = false
  ∧ input final = js "example.org"
  ∧ data final = Some (Scenario.analysis 85)
  ∧ error final = js "first".
Proof.
  apply (race_applies_completions_in_arrival_order DomainTool
           (Scenario.typed (T:=DomainTool) () (js "example.com"))
           (js "example.org")
           (Fulfilled (Scenario.unauthorized (Some (js "first"))))
           (Fulfilled (Scenario.success (Scenario.analysis 85)))).
  - reflexivity.
  - discriminate.
  - discriminate.
Defined.

(** ** Messages of failed calls *)

Lemma rejected_is_displayed (T : Tool) (w : World T) (id : nat)
    (fetched : Settled (Response (Data T))) (m : jsstring) :
  id ∈ Panel.inflight w →
  operation T fetched = Rejected m →
  truthy_string (or_else m (fallback T)) = true →
  error_box (render (step w (Panel.Settle id fetched)))
    = Some (or_else m (fallback T)).
Proof.
  intros Hid Hop Hfb. rewrite settle_pending by done.
  unfold render. cbn [error_box].
  destruct (resume_rejected (Panel.forget id w) fetched m Hop) as (-> & _ & _).
  by rewrite Hfb.
Qed.

Lemma keyed_analyzeDomain_401 {D : Type} (res : Response D) :
  status res = 401 →
  KeyedApi.analyzeDomain (Fulfilled res) = Rejected (js "Invalid API Key").
Proof.
  intros Hs. unfold KeyedApi.analyzeDomain.
  rewrite Hs. cbn [N.eqb Pos.eqb].
  apply when_ok_not_ok. by rewrite Hs.
Qed.

Lemma throw_detail_reports {D : Type} (res : Response D) (generic : jsstring) :
  ok (status res) = false →
  reports_detail res generic (when_ok res (λ j, j) (OpenApi.throw_detail generic)).
Proof.
  intros Hok. unfold reports_detail.
  repeat match goal with |- _ ∧ _ => split end.
  - intros m Hm. by rewrite (when_ok_parse_error res m _ _ Hm), Hok.
  - intros e He Hnull. rewrite (when_ok_failure res e _ _ He).
    unfold OpenApi.throw_detail, OpenApi.read_detail. by rewrite Hnull.
  - intros e fields s He Hobj Hd Hs. rewrite (when_ok_failure res e _ _ He).
    unfold OpenApi.throw_detail, OpenApi.read_detail, get.
    rewrite Hobj, Hd. simpl. by destruct s.
  - intros e fields d He Hobj Hd Ht. rewrite (when_ok_failure res e _ _ He).
    unfold OpenApi.throw_detail, OpenApi.read_detail, get.
    rewrite Hobj, Hd. simpl. rewrite Ht. split; by intros ? ->.
  - intros e fields He Hobj Ht. rewrite (when_ok_failure res e _ _ He).
    unfold OpenApi.throw_detail, OpenApi.read_detail. by rewrite Hobj, Ht.
  - intros e He Hnull Hundef Hobj. rewrite (when_ok_failure res e _ _ He).
    unfold OpenApi.throw_detail, OpenApi.read_detail.
    destruct (decoded e); try done. by destruct (Hobj fields).
Qed.

Lemma throw_detail_always_rejects {D : Type} (res : Response D) (generic : jsstring) :
  ok (status res) = false →
  ∃ m, when_ok res (λ j, j) (OpenApi.throw_detail generic) = Rejected m.
Proof.
  destruct res as [s j]. unfold when_ok. simpl. intros Hok.
  revert j. rewrite Hok. intros j. unfold OpenApi.throw_detail.
  destruct j as [e | m]; [|by eexists].
  destruct (OpenApi.read_detail e) as [d | m]; [|by eexists].
  destruct (truthy d); [|by eexists].
  destruct (ToString (texts e) d); by eexists.
Qed.

Lemma status_401_not_ok (code : N) : code = 401 → ok code = false.
Proof. by intros ->. Qed.

(** The two operations of the keyed client that do not look at the
    status: a 401 is reported like any other failure. *)
Lemma keyed_research_and_audit_401 {D : Type}
    (res : Response object) (res' : Response D) :
  status res = 401 →
  status res' = 401 →
  KeyedApi.researchKeywords (Fulfilled res) = Rejected (js "Research failed")
  ∧ KeyedApi.auditSite (Fulfilled res') = Rejected (js "Audit failed").
Proof.
  intros Hs Hs'. unfold KeyedApi.researchKeywords, KeyedApi.auditSite.
  split; apply when_ok_not_ok; by rewrite ?Hs, ?Hs'.
Qed.

(** C1 as stated fails: the domain panel shows a 401 whose body carries
    no detail as the generic failure text. *)
Lemma unauthorized_shown_as_generic_failure :
  let w := step (Scenario.typed (T:=DomainTool) () (js "example.com")) Click in
  error_box (render (step w (Panel.Settle 0 (Fulfilled (Scenario.unauthorized None)))))
    = Some (js "Analysis failed")
  ∧ js "Analysis failed" ≠ js "Invalid API Key".
Proof. split; [reflexivity | discriminate]. Qed.

(** C1, amended. In the client that sends the key, a 401 answer to
    analyzeDomain is reported as exactly 'Invalid API Key'.  In the
    client that forwards the server's detail, a 401 answer to any of the
    three operations is reported as follows: the parser's message when
    the body is not JSON; the TypeError's message when the body is
    [null]; for an object body, [String] of its [detail] when that is
    truthy (so the detail itself when it is a non-empty string, and the
    TypeError's message when the conversion throws), and the operation's
    generic text when the detail is falsy or missing; the generic text
    for every other body.  The domain and audit panels display the
    message reported, or their generic text when that message is empty. *)
Theorem unauthorized_messages :
  (∀ (D : Type) (res : Response D),
     status res = 401 →
     KeyedApi.analyzeDomain (Fulfilled res) = Rejected (js "Invalid API Key"))
  ∧ (∀ (D : Type) (res : Response D),
       status res = 401 →
       reports_detail res (js "Analysis failed")
         (OpenApi.analyzeDomain (Fulfilled res))
       ∧ reports_detail res (js "Research failed")
           (OpenApi.researchKeyword (Fulfilled res))
       ∧ reports_detail res (js "Audit failed")
           (OpenApi.auditSite (Fulfilled res)))
  ∧ (∀ (T : Tool) (w : World T) (id : nat) (res : Response (Data T)),
       T = DomainTool ∨ T = AuditTool →
       status res = 401 →
       id ∈ Panel.inflight w →
       ∃ m, operation T (Fulfilled res) = Rejected m
            ∧ reports_detail res (fallback T) (Rejected m)
            ∧ error_box (render (step w (Panel.Settle id (Fulfilled res))))
              = Some (or_else m (fallback T))).
Proof.
  split; [|split].
  - intros D res. apply keyed_analyzeDomain_401.
  - intros D res Hs. apply status_401_not_ok in Hs.
    split; [|split]; by apply throw_detail_reports.
  - intros T w id res HT Hs Hid. apply status_401_not_ok in Hs.
    assert (operation T (Fulfilled res)
            = when_ok res (λ j, j) (OpenApi.throw_detail (fallback T))
            ∧ truthy_string (fallback T) = true) as [Hop Hfb]
      by (by destruct HT as [-> | ->]).
    pose proof (throw_detail_reports res (fallback T) Hs) as Hrep.
    destruct (throw_detail_always_rejects res (fallback T) Hs) as [m Hm].
    rewrite Hm in Hrep. rewrite Hm in Hop.
    exists m. split; [done|]. split; [done|].
    apply rejected_is_displayed; [done | done | by apply or_else_truthy].
Qed.

Lemma unauthorized_messages_witness :
  let w := step (Scenario.typed (T:=DomainTool) () (js "example.com")) Click in
  error_box
    (render (step w (Panel.Settle 0
       (Fulfilled (Scenario.unauthorized (Some (js "Invalid or missing API key")))))))
    = Some (js "Invalid or missing API key")
  ∧ error_box
      (render (step w (Panel.Settle (T:=DomainTool) 0
         (Fulfilled (Scenario.unauthorized_with
            (VObject {[ js "detail" := VArray [VObject ∅] ]}))))))
    = Some (js "[object Object]")
  ∧ error_box
      (render (step w (Panel.Settle (T:=DomainTool) 0
         (Fulfilled (Scenario.unauthorized_with VNull)))))
    = Some (js "Cannot read properties of null (reading 'detail')").
Proof.
  destruct unauthorized_messages as (_ & _ & Hpanel).
  pose (w := step (Scenario.typed (T:=DomainTool) () (js "example.com")) Click).
  assert (0%nat ∈ Panel.inflight w) as Hid
    by (vm_compute; apply list_elem_of_here).
  cbv zeta. fold w. split; [|split].
  - destruct (Hpanel DomainTool w 0%nat
                (Scenario.unauthorized (Some (js "Invalid or missing API key")))
                ltac:(by left) eq_refl Hid) as (m & Hop & _ & ->).
    vm_compute in Hop. inversion Hop. reflexivity.
  - destruct (Hpanel DomainTool w 0%nat
                (Scenario.unauthorized_with
                   (VObject {[ js "detail" := VArray [VObject ∅] ]}))
                ltac:(by left) eq_refl Hid) as (m & Hop & _ & ->).
    vm_compute in Hop. inversion Hop. reflexivity.
  - destruct (Hpanel DomainTool w 0%nat (Scenario.unauthorized_with VNull)
                ltac:(by left) eq_refl Hid) as (m & Hop & _ & ->).
    vm_compute in Hop. inversion Hop. reflexivity.
Defined.

(** ** Access gate *)

Lemma trim_start_all_white (s : jsstring) :
  trim_start s = [] ↔ ∀ c, c ∈ s → is_white_space c = true.
Proof.
  induction s as [|c s IH]; simpl.
  - split; [|done]. intros _ c Hc. by apply elem_of_nil in Hc.
  - destruct (is_white_space c) eqn:Hc.
    + rewrite IH. split.
      * intros H c' [-> | Hc']%elem_of_cons; auto.
      * intros H c' Hc'. apply H. by right.
    + split; [done|]. intros H.
      rewrite H in Hc by left. discriminate.
Qed.

Lemma trim_start_head (s : jsstring) (c : N) (t : jsstring) :
  trim_start s = c :: t → is_white_space c = false.
Proof.
  induction s as [|c' s IH]; simpl; [done|].
  destruct (is_white_space c') eqn:Hc; [done|].
  intros H. by inversion H; subst.
Qed.

(** [s.trim()] is empty exactly when [s] has only white space. *)
Lemma trim_empty_iff (s : jsstring) :
  trim s = [] ↔ ∀ c, c ∈ s → is_white_space c = true.
Proof.
  unfold trim. rewrite <- trim_start_all_white. split.
  - intros H.
    assert (trim_start (reverse (trim_start s)) = []) as H'.
    { apply (f_equal reverse) in H. by rewrite reverse_involutive in H. }
    destruct (trim_start s) as [|c t] eqn:Hs; [done|].
    apply trim_start_head in Hs.
    rewrite trim_start_all_white in H'.
    rewrite H' in Hs; [done|]. rewrite elem_of_reverse. left.
  - by intros ->.
Qed.

Lemma trim_truthy_iff (s : jsstring) :
  truthy_string (trim s) = true ↔ ∃ c, c ∈ s ∧ is_white_space c = false.
Proof.
  rewrite truthy_string_nonempty, trim_empty_iff. split.
  - intros H.
    destruct (decide (Forall (λ c, is_white_space c = true) s)) as [HF | HF].
    + exfalso. apply H. by apply Forall_forall.
    + apply not_Forall_Exists in HF; [|apply _].
      apply Exists_exists in HF as (c & Hc & Hw).
      exists c. split; [done|]. by apply not_true_is_false.
  - intros (c & Hc & Hw) H. rewrite H in Hw by done. discriminate.
Qed.

(** C5 as stated fails: a credential of one space is not empty, and
    submitting it neither authenticates nor stores anything. *)
Lemma blank_credential_is_refused :
  let h := Gate.login_with (js " ") (Gate.initial ∅) in
  js " " ≠ []
  ∧ Gate.isAuthenticated h = false
  ∧ Gate.localStorage h !! Gate.storage_key = None.
Proof. repeat split. discriminate. Qed.

(** C5, amended. Submitting the login form with credential [s]
    authenticates the session and stores [s] (as typed, untrimmed) under
    the storage key if and only if [s] has a character that is not white
    space, that is, [s.trim()] is not empty.  Nothing is sent to a server
    either way, and a credential of white space only changes nothing. *)
Theorem login_accepts_exactly_non_blank (h : Gate.Home) (s : jsstring) :
  Gate.isAuthenticated h = false →
  let h' := Gate.login_with s h in
  ((Gate.isAuthenticated h' = true
    ∧ Gate.localStorage h' !! Gate.storage_key = Some s)
   ↔ ∃ c, c ∈ s ∧ is_white_space c = false)
  ∧ (Gate.isAuthenticated h' = true ↔ truthy_string (trim s) = true)
  ∧ Gate.network h' = Gate.network h
  ∧ ((∀ c, c ∈ s → is_white_space c = true) → h' = Gate.setApiKey s h).
Proof.
  intros Hauth h'. unfold h', Gate.login_with, Gate.handleLogin.
  cbn [Gate.setApiKey Gate.apiKey].
  rewrite <- trim_truthy_iff.
  destruct (truthy_string (trim s)) eqn:Ht; simpl.
  - repeat split; try done.
    + by rewrite lookup_insert_eq.
    + intros Hall. apply trim_empty_iff in Hall.
      by rewrite Hall in Ht.
  - rewrite Hauth. repeat split; try done. by intros [? _].
Qed.

Lemma login_accepts_exactly_non_blank_witness :
  let h' := Gate.login_with (js "seo_live_42") (Gate.initial ∅) in
  Gate.isAuthenticated h' = true
  ∧ Gate.localStorage h' !! Gate.storage_key = Some (js "seo_live_42").
Proof.
  apply (login_accepts_exactly_non_blank (Gate.initial ∅) (js "seo_live_42")).
  - reflexivity.
  - exists 115. split; [|reflexivity]. vm_compute. apply list_elem_of_here.
Defined.

(** ** The score of the domain panel *)

Lemma score_class_cases (s : number) :
  (num_le (num 70) s ∧ score_class s = colors good)
  ∨ (num_le (num 40) s ∧ num_lt s (num 70) ∧ score_class s = colors warn)
  ∨ (num_lt s (num 40) ∧ score_class s = colors bad).
Proof.
  unfold score_class.
  destruct (ge s (num 70)) eqn:H70.
  - left. by apply ge_true_iff in H70.
  - apply ge_false_iff in H70.
    destruct (ge s (num 40)) eqn:H40.
    + right; left. by apply ge_true_iff in H40.
    + right; right. by apply ge_false_iff in H40.
Qed.

Lemma num_lt_not_le (x y : number) : num_lt x y → ¬ num_le y x.
Proof.
  destruct x, y; simpl; try tauto. apply Qlt_not_le.
Qed.

Lemma num_lt_le_trans (x y z : number) : num_lt x y → num_le y z → num_lt x z.
Proof.
  destruct x, y, z; simpl; try tauto. apply Qlt_le_trans.
Qed.

Lemma num_40_le_70 : num_le (num 40) (num 70).
Proof. simpl. apply Qle_bool_iff. reflexivity. Qed.

Lemma num_lt_40_70 (s : number) : num_lt s (num 40) → num_lt s (num 70).
Proof. intros H. eapply num_lt_le_trans; [done | apply num_40_le_70]. Qed.

Ltac absurd_order :=
  match goal with
  | H : num_lt ?x ?y, H' : num_le ?y ?x |- _ =>
      destruct (num_lt_not_le _ _ H H')
  end.

Ltac absurd_color :=
  match goal with
  | H : colors _ = colors _ |- _ => vm_compute in H; discriminate H
  end.

Lemma score_class_good (s : number) :
  score_class s = colors good ↔ num_le (num 70) s.
Proof.
  destruct (score_class_cases s) as [[H70 E] | [(H40 & H70 & E) | [H40 E]]];
    rewrite E; split; intros H; try done; try absurd_color; try absurd_order.
  apply num_lt_40_70 in H40. absurd_order.
Qed.

Lemma score_class_warn (s : number) :
  score_class s = colors warn ↔ num_le (num 40) s ∧ num_lt s (num 70).
Proof.
  destruct (score_class_cases s) as [[H70 E] | [(H40 & H70 & E) | [H40 E]]];
    rewrite E; split; intros H; try done; try absurd_color;
    destruct H as [H H']; absurd_order.
Qed.

Lemma score_class_bad (s : number) :
  score_class s = colors bad ↔ num_lt s (num 40).
Proof.
  destruct (score_class_cases s) as [[H70 E] | [(H40 & H70 & E) | [H40 E]]];
    rewrite E; split; intros H; try done; try absurd_color; try absurd_order.
  apply num_lt_40_70 in H. absurd_order.
Qed.

(** C6. When a /domain call succeeds with body [d], the panel shows
    [d.seo_score] itself, in the colour of the tier fixed by the
    boundaries: good exactly from 70 up, warn exactly from 40 up to but
    not including 70, bad exactly below 40.  A score of 85 is shown as 85
    in the good colour. *)
Theorem score_is_shown_in_its_tier (w : World DomainTool) (id : nat)
    (res : Response DomainAnalysis) (d : DomainAnalysis) :
  id ∈ Panel.inflight w →
  payload res = Some d →
  ∃ block,
    render_score (step w (Panel.Settle (T:=DomainTool) id (Fulfilled res)))
      = Some block
    ∧ score_text block = seo_score d
    ∧ (score_color block = colors good ↔ num_le (num 70) (seo_score d))
    ∧ (score_color block = colors warn
       ↔ num_le (num 40) (seo_score d) ∧ num_lt (seo_score d) (num 70))
    ∧ (score_color block = colors bad ↔ num_lt (seo_score d) (num 40))
    ∧ (seo_score d = num 85 →
       score_text block = num 85 ∧ score_color block = colors good).
Proof.
  intros Hid Hd.
  rewrite settle_pending by done.
  assert (operation DomainTool (Fulfilled res) = Fulfilled d) as Hop.
  { simpl. unfold OpenApi.analyzeDomain. by rewrite (when_ok_payload res d). }
  unfold render_score.
  destruct (resume_fulfilled (Panel.forget id w) _ d Hop) as (-> & _ & _).
  eexists. split; [reflexivity|]. cbn [score_text score_color].
  split; [done|].
  split; [apply score_class_good|].
  split; [apply score_class_warn|].
  split; [apply score_class_bad|].
  intros ->. split; reflexivity.
Qed.

Lemma score_is_shown_in_its_tier_witness :
  ∃ block,
    render_score
      (step (step (Scenario.typed (T:=DomainTool) () (js "example.com")) Click)
         (Panel.Settle (T:=DomainTool) 0
            (Fulfilled (Scenario.success (Scenario.analysis 85)))))
      = Some block
    ∧ score_text block = num 85
    ∧ score_color block = js "text-green".
Proof.
  destruct (score_is_shown_in_its_tier
              (step (Scenario.typed (T:=DomainTool) () (js "example.com")) Click)
              0%nat
              (Scenario.success (Scenario.analysis 85))
              (Scenario.analysis 85))
    as (block & Hb & Ht & _ & _ & _ & H85).
  - vm_compute. apply list_elem_of_here.
  - reflexivity.
  - exists block. split; [exact Hb|]. apply H85. reflexivity.
Defined.

(** ** Keyword research *)

(** C7. When a /keywords call succeeds with a body whose
    [keyword_difficulty] is [d], researchKeywords returns an object whose
    [difficulty] is [d] and whose other properties are those of the body,
    unchanged; the keyword panel holds that object as its data. *)
Theorem difficulty_aliases_keyword_difficulty
    (env : option jsstring) (apiKey : jsstring)
    (w : World (KeywordTool env apiKey)) (id : nat)
    (res : Response object) (body : object) (d : value) :
  payload res = Some body →
  body !! js "keyword_difficulty" = Some d →
  id ∈ Panel.inflight w →
  ∃ out : object,
    KeyedApi.researchKeywords (Fulfilled res) = Fulfilled out
    ∧ out !! js "difficulty" = Some d
    ∧ (∀ k, k ≠ js "difficulty" → out !! k = body !! k)
    ∧ data (step w (Panel.Settle (T:=KeywordTool env apiKey) id (Fulfilled res)))
      = Some out.
Proof.
  intros Hbody Hd Hid.
  exists (<[ js "difficulty" := d ]> body).
  assert (KeyedApi.researchKeywords (Fulfilled res)
          = Fulfilled (<[ js "difficulty" := d ]> body)) as Hop.
  { unfold KeyedApi.researchKeywords.
    rewrite (when_ok_payload res body) by done.
    unfold get. by rewrite Hd. }
  split; [done|].
  split; [apply lookup_insert_eq|].
  split; [intros k Hk; by apply lookup_insert_ne|].
  rewrite settle_pending by done.
  by destruct (resume_fulfilled (T:=KeywordTool env apiKey)
                 (Panel.forget id w) (Fulfilled res) _ Hop) as (-> & _).
Qed.

Lemma difficulty_aliases_keyword_difficulty_witness :
  ∃ out : object,
    KeyedApi.researchKeywords (Fulfilled (Scenario.success Scenario.keyword_body))
      = Fulfilled out
    ∧ out !! js "difficulty" = Some (VNumber (num 42))
    ∧ out !! js "keyword" = Some (VString (js "ai tools")).
Proof.
  destruct (difficulty_aliases_keyword_difficulty None (js "seo_live_42")
              (step (Scenario.typed (T:=KeywordTool None (js "seo_live_42"))
                       (js "us") (js "ai tools")) Click)
              0%nat
              (Scenario.success Scenario.keyword_body)
              Scenario.keyword_body
              (VNumber (num 42)))
    as (out & Hout & Hd & Hother & _).
  - reflexivity.
  - vm_compute. reflexivity.
  - vm_compute. apply list_elem_of_here.
  - exists out. split; [exact Hout|]. split; [exact Hd|].
    rewrite Hother by discriminate. vm_compute. reflexivity.
Defined.

(** ** Checkout *)

Section Checkout.
Variable env : option jsstring.

Lemma pricing_settle_pending (w : Pricing.World) (id : nat)
    (fetched : Settled (Response object)) :
  id ∈ Pricing.inflight w →
  Pricing.step env w (Pricing.Settle id fetched)
    = Pricing.resume (Pricing.forget id w) fetched.
Proof. intros H. simpl. by rewrite bool_decide_eq_true_2. Qed.

Lemma modal_settle_pending (w : PricingModal.World) (id : nat)
    (fetched : Settled (Response object)) :
  id ∈ PricingModal.inflight w →
  PricingModal.step w (PricingModal.Settle id fetched)
    = PricingModal.resume (PricingModal.forget id w) fetched.
Proof. intros H. simpl. by rewrite bool_decide_eq_true_2. Qed.

Lemma checkout_fulfilled (res : Response object) (body : object) :
  payload res = Some body →
  KeyedApi.checkout (Fulfilled res) = Fulfilled body
  ∧ OpenApi.checkout (Fulfilled res) = Fulfilled body.
Proof.
  intros H. unfold KeyedApi.checkout, OpenApi.checkout.
  by rewrite !(when_ok_payload res body _ _ H).
Qed.

End Checkout.

(** C8 as stated fails: a successful checkout answer whose
    [checkout_url] is the empty string sets no navigation target. *)
Lemma empty_checkout_url_is_not_followed :
  Scenario.checkout_body (VString []) !! js "checkout_url" = Some (VString [])
  ∧ Pricing.href
      (Pricing.step None (Scenario.checking_out None)
         (Pricing.Settle 0
            (Fulfilled (Scenario.success (Scenario.checkout_body (VString []))))))
    = None.
Proof. split; vm_compute; reflexivity. Qed.

(** C8, amended. When a checkout call succeeds with a body whose
    [checkout_url] is [U] and [U] is truthy (for a string: not empty),
    the value assigned to [window.location.href] is exactly [U], in both
    pricing components. *)
Theorem checkout_url_is_followed (env : option jsstring)
    (w : Pricing.World) (m : PricingModal.World) (id : nat)
    (res : Response object) (body : object) (U : value) :
  payload res = Some body →
  body !! js "checkout_url" = Some U →
  truthy U = true →
  (id ∈ Pricing.inflight w →
   Pricing.href (Pricing.step env w (Pricing.Settle id (Fulfilled res))) = Some U)
  ∧ (id ∈ PricingModal.inflight m →
     PricingModal.href (PricingModal.step m (PricingModal.Settle id (Fulfilled res)))
       = Some U).
Proof.
  intros Hbody HU Ht.
  destruct (checkout_fulfilled res body Hbody) as [Hk Ho].
  assert (get body (js "checkout_url") = U) as Hget by (unfold get; by rewrite HU).
  split; intros Hid.
  - rewrite pricing_settle_pending by done.
    unfold Pricing.resume. rewrite Hk. cbn [Pricing.href].
    by rewrite Hget, Ht.
  - rewrite modal_settle_pending by done.
    unfold PricingModal.resume. rewrite Ho. cbn [PricingModal.href].
    by rewrite Hget, Ht.
Qed.

Lemma checkout_url_is_followed_witness :
  Pricing.href
    (Pricing.step None (Scenario.checking_out None)
       (Pricing.Settle 0
          (Fulfilled (Scenario.success
             (Scenario.checkout_body (VString (js "https://pay.example/sess_123")))))))
    = Some (VString (js "https://pay.example/sess_123")).
Proof.
  apply (checkout_url_is_followed None (Scenario.checking_out None)
           (Scenario.confirming (js "name@company.com")) 0%nat
           (Scenario.success
              (Scenario.checkout_body (VString (js "https://pay.example/sess_123"))))
           (Scenario.checkout_body (VString (js "https://pay.example/sess_123")))
           (VString (js "https://pay.example/sess_123"))).
  - reflexivity.
  - vm_compute. reflexivity.
  - reflexivity.
  - vm_compute. apply list_elem_of_here.
Defined.

Lemma includes_at_sign (s : jsstring) : includes s (js "@") = true ↔ 64 ∈ s.
Proof.
  induction s as [|c s IH].
  - split; [done|]. intros H. by apply elem_of_nil in H.
  - change (includes (c :: s) (js "@"))
      with ((64 =? c) && true || includes s (js "@")).
    rewrite andb_true_r, orb_true_iff, IH, N.eqb_eq, elem_of_cons. done.
Qed.

(** The guard of the dialog's [handleCheckout] lets exactly the
    addresses with an @ through. *)
Lemma modal_guard (address : jsstring) :
  negb (truthy_string address) || negb (includes address (js "@")) = false
  ↔ 64 ∈ address.
Proof.
  rewrite <- includes_at_sign.
  destruct address as [|c s]; [done|].
  cbn [truthy_string negb orb]. by destruct (includes (c :: s) (js "@")).
Qed.

(** C9. In the dialog variant, [handleCheckout] calls the checkout
    operation if and only if the address typed in the dialog contains an
    @.  With an @ exactly one request, for the lower-cased plan and that
    address, is added; without one nothing is sent, the alert 'Please
    enter a valid email' is raised, and the component is otherwise as it
    was. *)
Theorem modal_checkout_requires_at_sign (w : PricingModal.World) :
  let w' := PricingModal.handleCheckout w in
  (PricingModal.calls w' ≠ PricingModal.calls w ↔ 64 ∈ PricingModal.email w)
  ∧ (64 ∈ PricingModal.email w →
       PricingModal.calls w' = PricingModal.calls w ++
         [OpenApi.checkout_request
            (toLowerCase (PricingModal.selectedPlan w)) (PricingModal.email w)]
       ∧ PricingModal.alerts w' = PricingModal.alerts w
       ∧ PricingModal.loading w' = true)
  ∧ (64 ∉ PricingModal.email w →
       PricingModal.calls w' = PricingModal.calls w
       ∧ PricingModal.inflight w' = PricingModal.inflight w
       ∧ PricingModal.alerts w' =
           PricingModal.alerts w ++ [js "Please enter a valid email"]
       ∧ PricingModal.selectedPlan w' = PricingModal.selectedPlan w
       ∧ PricingModal.isModalOpen w' = PricingModal.isModalOpen w
       ∧ PricingModal.email w' = PricingModal.email w
       ∧ PricingModal.loading w' = PricingModal.loading w
       ∧ PricingModal.href w' = PricingModal.href w
       ∧ PricingModal.console w' = PricingModal.console w).
Proof.
  intros w'. unfold w', PricingModal.handleCheckout.
  destruct (negb (truthy_string (PricingModal.email w))
            || negb (includes (PricingModal.email w) (js "@"))) eqn:Hg.
  - assert (64 ∉ PricingModal.email w) as Hno.
    { intros Hin. apply modal_guard in Hin. congruence. }
    cbn. split; [|split]; [split | |]; done.
  - assert (64 ∈ PricingModal.email w) as Hin by by apply modal_guard.
    cbn. split; [|split]; [split | |]; try done.
    intros _ Heq. apply (f_equal length) in Heq.
    rewrite length_app in Heq. simpl in Heq. lia.
Qed.

Lemma modal_checkout_requires_at_sign_witness :
  PricingModal.calls (Scenario.confirming (js "name@company.com"))
    = [OpenApi.checkout_request (js "starter") (js "name@company.com")]
  ∧ PricingModal.calls (Scenario.confirming (js "name.company.com")) = []
  ∧ PricingModal.alerts (Scenario.confirming (js "name.company.com"))
    = [js "Please enter a valid email"].
Proof.
  pose proof (modal_checkout_requires_at_sign
                (foldl PricingModal.step PricingModal.initial
                   [PricingModal.GetStarted 0;
                    PricingModal.ChangeEmail (js "name@company.com")]))
    as (_ & Hyes & _).
  pose proof (modal_checkout_requires_at_sign
                (foldl PricingModal.step PricingModal.initial
                   [PricingModal.GetStarted 0;
                    PricingModal.ChangeEmail (js "name.company.com")]))
    as (_ & _ & Hno).
  split; [|split].
  - apply Hyes. vm_compute. do 4 apply list_elem_of_further.
    apply list_elem_of_here.
  - apply Hno. vm_compute. intros H.
    repeat (apply elem_of_cons in H as [H | H]; [discriminate H|]).
    by apply elem_of_nil in H.
  - apply Hno. vm_compute. intros H.
    repeat (apply elem_of_cons in H as [H | H]; [discriminate H|]).
    by apply elem_of_nil in H.
Defined.

(** C10. When a checkout call succeeds with a body that has no truthy
    [checkout_url], neither pricing component navigates, logs or alerts:
    [window.location.href], the console and the alerts are as before, and
    the loading indicator is reset. *)
Theorem checkout_without_url_is_silent (env : option jsstring)
    (w : Pricing.World) (m : PricingModal.World) (id : nat)
    (res : Response object) (body : object) :
  payload res = Some body →
  truthy (get body (js "checkout_url")) = false →
  (id ∈ Pricing.inflight w →
   let w' := Pricing.step env w (Pricing.Settle id (Fulfilled res)) in
   Pricing.href w' = Pricing.href w
   ∧ Pricing.console w' = Pricing.console w
   ∧ Pricing.alerts w' = Pricing.alerts w
   ∧ Pricing.loading w' = None)
  ∧ (id ∈ PricingModal.inflight m →
     let m' := PricingModal.step m (PricingModal.Settle id (Fulfilled res)) in
     PricingModal.href m' = PricingModal.href m
     ∧ PricingModal.console m' = PricingModal.console m
     ∧ PricingModal.alerts m' = PricingModal.alerts m
     ∧ PricingModal.loading m' = false).
Proof.
  intros Hbody Ht.
  destruct (checkout_fulfilled res body Hbody) as [Hk Ho].
  split; intros Hid.
  - cbv zeta. rewrite pricing_settle_pending by done.
    unfold Pricing.resume. rewrite Hk.
    cbn [Pricing.href Pricing.console Pricing.alerts Pricing.loading].
    by rewrite Ht.
  - cbv zeta. rewrite modal_settle_pending by done.
    unfold PricingModal.resume. rewrite Ho.
    cbn [PricingModal.href PricingModal.console PricingModal.alerts
         PricingModal.loading].
    by rewrite Ht.
Qed.

Lemma checkout_without_url_is_silent_witness :
  let body := route_POST_body (VString (js "cs_test_a1"))
                (VString (js "https://checkout.stripe.com/c/pay/cs_test_a1")) in
  let w' := Pricing.step None (Scenario.checking_out None)
              (Pricing.Settle 0 (Fulfilled (Scenario.success body))) in
  Pricing.href w' = None
  ∧ Pricing.console w' = []
  ∧ Pricing.alerts w' = []
  ∧ Pricing.loading w' = None.
Proof.
  apply (checkout_without_url_is_silent None (Scenario.checking_out None)
           (Scenario.confirming (js "name@company.com")) 0%nat
           (Scenario.success
              (route_POST_body (VString (js "cs_test_a1"))
                 (VString (js "https://checkout.stripe.com/c/pay/cs_test_a1"))))
           (route_POST_body (VString (js "cs_test_a1"))
              (VString (js "https://checkout.stripe.com/c/pay/cs_test_a1")))).
  - reflexivity.
  - vm_compute. reflexivity.
  - vm_compute. apply list_elem_of_here.
Defined.

(** * Further properties *)

(** ** Tool panels along sequences of events *)

Section PanelTraces.
Context {T : Tool}.
Implicit Types w : World T.

Lemma run_snoc w (es : list (Event T)) (e : Event T) :
  run w (es ++ [e]) = step (run w es) e.
Proof. unfold run. by rewrite foldl_snoc. Qed.

Lemma inflight_resume w fetched :
  Panel.inflight (Panel.resume w fetched) = Panel.inflight w.
Proof. unfold Panel.resume. by destruct (operation T fetched). Qed.

Lemma calls_resume w fetched :
  Panel.calls (Panel.resume w fetched) = Panel.calls w.
Proof. unfold Panel.resume. by destruct (operation T fetched). Qed.

Lemma loading_resume w fetched :
  Panel.loading (Panel.resume w fetched) = false.
Proof. unfold Panel.resume. by destruct (operation T fetched). Qed.

Lemma orderly_submit w : Panel.loading w = false → orderly w → orderly (submit w).
Proof.
  intros Hl [Hlen Hiff]. unfold submit.
  destruct (truthy_string (input w)); simpl; [|done].
  assert (Panel.inflight w = []) as ->.
  { destruct (Panel.inflight w) as [|i l] eqn:E; [done|].
    assert (Panel.loading w = true) by (by apply Hiff). congruence. }
  split; simpl; [lia|done].
Qed.

Lemma orderly_step w (e : Event T) :
  e ≠ KeyDown (js "Enter") → orderly w → orderly (step w e).
Proof.
  intros He Hw. destruct e as [s | a | | key | id fetched]; simpl.
  - done.
  - done.
  - destruct (Panel.loading w) eqn:Hl; [done|]. by apply orderly_submit.
  - rewrite bool_decide_eq_false_2; [done|]. by intros ->.
  - case_bool_decide as Hid; [|done].
    destruct Hw as [Hlen Hiff].
    destruct (Panel.inflight w) as [|i [|j l]] eqn:E; simpl in Hlen; [|  |lia].
    + by apply elem_of_nil in Hid.
    + apply list_elem_of_singleton in Hid as ->.
      assert (filter (λ i0 : nat, i0 ≠ i) [i] = []) as Hf.
      { rewrite filter_cons, decide_False by (intros H; by apply H).
        apply filter_nil. }
      split.
      * rewrite inflight_resume. simpl. rewrite E, Hf. simpl. lia.
      * rewrite inflight_resume, loading_resume. simpl. rewrite E, Hf.
        split; [discriminate | intros H; by destruct H].
Qed.

Lemma orderly_run w (es : list (Event T)) :
  Forall (λ e, e ≠ KeyDown (js "Enter")) es → orderly w → orderly (run w es).
Proof.
  induction es as [|e es IH] using rev_ind; [done|].
  intros [Hes He]%Forall_app Hw. rewrite Forall_singleton in He.
  rewrite run_snoc. apply orderly_step; [exact He|]. by apply IH.
Qed.

Lemma well_sent_submit w : well_sent w → well_sent (submit w).
Proof.
  intros Hw. unfold submit.
  destruct (input w) as [|c s] eqn:E; simpl; [done|].
  apply Forall_app. split; [done|].
  apply Forall_singleton. by exists (c :: s).
Qed.

Lemma well_sent_step w (e : Event T) : well_sent w → well_sent (step w e).
Proof.
  intros Hw. destruct e as [s | a | | key | id fetched]; simpl; try done.
  - destruct (Panel.loading w); [done|]. by apply well_sent_submit.
  - case_bool_decide; [|done]. by apply well_sent_submit.
  - case_bool_decide; [|done]. unfold well_sent. by rewrite calls_resume.
Qed.

Lemma well_sent_initial (a : Aux T) : well_sent (Panel.initial a).
Proof. constructor. Qed.

Lemma well_sent_run w (es : list (Event T)) : well_sent w → well_sent (run w es).
Proof.
  induction es as [|e es IH] using rev_ind; [done|].
  intros Hw. rewrite run_snoc. apply well_sent_step. by apply IH.
Qed.

End PanelTraces.

(** X1. One submission on an idle panel with a non-empty input, then its
    answer: one call is made for that input, and the panel ends idle
    showing exactly the outcome of that call (its body and no error, or
    its message and no data). *)
Theorem single_submission_shows_outcome (T : Tool) (w : World T)
    (fetched : Settled (Response (Data T))) :
  Panel.loading w = false →
  input w ≠ [] →
  let w' := run w [Click; Panel.Settle (length (Panel.calls w)) fetched] in
  Scenario.shows w' (operation T fetched)
  ∧ Panel.loading w' = false
  ∧ Panel.calls w' = Panel.calls w ++ [request T (input w)].
Proof.
  intros Hl Hin w'. unfold w', run. cbn [foldl].
  assert (step w Click = submit w) as -> by (simpl; by rewrite Hl).
  rewrite settle_pending
    by (rewrite (submit_nonempty w Hin); simpl; set_solver).
  rewrite (submit_nonempty w Hin).
  unfold Scenario.shows, Panel.resume.
  destruct (operation T fetched); done.
Qed.

Lemma single_submission_shows_outcome_witness :
  let w' := run (Scenario.typed (T:=DomainTool) () (js "example.com"))
              [Click;
               Panel.Settle (T:=DomainTool) 0
                 (Fulfilled (Scenario.success (Scenario.analysis 85)))] in
  data w' = Some (Scenario.analysis 85) ∧ error w' = [].
Proof.
  apply (single_submission_shows_outcome DomainTool
           (Scenario.typed (T:=DomainTool) () (js "example.com"))
           (Fulfilled (Scenario.success (Scenario.analysis 85)))).
  - reflexivity.
  - discriminate.
Defined.

(** X2. As long as Enter is never pressed in the input field, whatever
    else happens (typing, clicks, other keys, answers arriving in any
    order), a panel never has more than one call pending, and it is busy
    exactly while one is. *)
Theorem clicks_keep_one_call_pending (T : Tool) (a : Aux T) (es : list (Event T)) :
  Forall (λ e, e ≠ KeyDown (js "Enter")) es →
  let w := run (Panel.initial a) es in
  (length (Panel.inflight w) ≤ 1)%nat
  ∧ (Panel.loading w = true ↔ Panel.inflight w ≠ []).
Proof.
  intros Hes. apply (orderly_run (Panel.initial a) es Hes).
  split; simpl; [lia|]. split; [discriminate | intros H; by destruct H].
Qed.

Lemma clicks_keep_one_call_pending_witness :
  let w := run (Panel.initial (T:=DomainTool) ())
             [Change (js "example.com"); Click; Click; KeyDown (js "a"); Click] in
  (length (Panel.inflight w) ≤ 1)%nat
  ∧ (Panel.loading w = true ↔ Panel.inflight w ≠ []).
Proof.
  apply (clicks_keep_one_call_pending DomainTool ()
           [Change (js "example.com"); Click; Click; KeyDown (js "a"); Click]).
  repeat (apply Forall_cons; split; [vm_compute; discriminate|]).
  apply Forall_nil. exact I.
Defined.

(** X3. Whatever the sequence of events, every call the domain and audit
    panels make is a POST for a non-empty input that carries no key
    header, and every call the keyword panel makes carries the key it was
    given and a body with the keyword alone. *)
Theorem panels_send_only_well_formed_calls :
  (∀ es : list (Event DomainTool),
     Forall (λ r, ∃ s, s ≠ [] ∧ r = OpenApi.analyzeDomain_request s None
                    ∧ headers r = [content_type_json]
                    ∧ body r = {[ js "domain" := VString s ]})
       (Panel.calls (run (Panel.initial (T:=DomainTool) ()) es)))
  ∧ (∀ es : list (Event AuditTool),
       Forall (λ r, ∃ s, s ≠ [] ∧ r = OpenApi.auditSite_request s None
                      ∧ headers r = [content_type_json]
                      ∧ body r = {[ js "url" := VString s ]})
         (Panel.calls (run (Panel.initial (T:=AuditTool) ()) es)))
  ∧ (∀ (env : option jsstring) (apiKey country : jsstring)
       (es : list (Event (KeywordTool env apiKey))),
       Forall (λ r, ∃ s, s ≠ []
                      ∧ headers r = [content_type_json; (js "x-api-key", apiKey)]
                      ∧ body r = {[ js "keyword" := VString s ]})
         (Panel.calls (run (Panel.initial (T:=KeywordTool env apiKey) country) es))).
Proof.
  split; [|split].
  - intros es.
    eapply Forall_impl;
      [apply (well_sent_run (T:=DomainTool) _ es), well_sent_initial|].
    intros r (s & Hs & ->). exists s. repeat split; done.
  - intros es.
    eapply Forall_impl;
      [apply (well_sent_run (T:=AuditTool) _ es), well_sent_initial|].
    intros r (s & Hs & ->). exists s. repeat split; done.
  - intros env apiKey country es.
    eapply Forall_impl;
      [apply (well_sent_run (T:=KeywordTool env apiKey) _ es), well_sent_initial|].
    intros r (s & Hs & ->). exists s. repeat split; done.
Qed.

(** ** The country select of the keyword panel *)

Lemma alike_step {T : Tool} (w w' : World T) (e : Event T) :
  alike w w' → alike (step w e) (step w' e).
Proof.
  unfold alike. intros (Hi & Hl & Hd & He & Hc & Hf).
  destruct e as [s | a | | key | id fetched]; simpl.
  - done.
  - done.
  - rewrite <- Hl. destruct (Panel.loading w) eqn:Hlw;
      [repeat split; congruence|].
    unfold submit. rewrite <- Hi, <- Hc, <- Hf.
    destruct (truthy_string (input w)); simpl; repeat split; congruence.
  - case_bool_decide; [|done].
    unfold submit. rewrite <- Hi, <- Hc, <- Hf.
    destruct (truthy_string (input w)); simpl; repeat split; congruence.
  - rewrite <- Hf. case_bool_decide; [|done].
    unfold Panel.resume. simpl. rewrite <- Hi, <- Hd, <- He, <- Hc, <- Hf.
    by destruct (operation T fetched).
Qed.

Lemma alike_select {T : Tool} (w w' : World T) (a : Aux T) :
  alike w w' → alike (step w (Select a)) w'.
Proof. done. Qed.

Lemma alike_run {T : Tool} (es : list (Event T)) (w w' : World T) :
  alike w w' →
  alike (run w es) (run w' (List.filter (λ e, negb (is_select e)) es)).
Proof.
  revert w w'. induction es as [|e es IH]; intros w w' Hw; [done|].
  unfold run in *. cbn [foldl List.filter].
  destruct (is_select e) eqn:He; cbn [negb].
  - apply IH. destruct e; try discriminate. by apply alike_select.
  - cbn [foldl]. apply IH. by apply alike_step.
Qed.

(** X4. The country chosen in the keyword panel has no effect: for any
    sequence of events and any two initial countries, dropping every
    change of the select leaves the input, the busy state, the data, the
    error and every call made exactly the same. *)
Theorem country_select_has_no_effect (env : option jsstring) (apiKey : jsstring)
    (country country' : jsstring) (es : list (Event (KeywordTool env apiKey))) :
  let w := run (Panel.initial (T:=KeywordTool env apiKey) country) es in
  let w' := run (Panel.initial (T:=KeywordTool env apiKey) country')
              (List.filter (λ e, negb (is_select e)) es) in
  input w = input w'
  ∧ Panel.loading w = Panel.loading w'
  ∧ data w = data w'
  ∧ error w = error w'
  ∧ Panel.calls w = Panel.calls w'.
Proof.
  destruct (alike_run es (Panel.initial (T:=KeywordTool env apiKey) country)
              (Panel.initial (T:=KeywordTool env apiKey) country'))
    as (? & ? & ? & ? & ? & ?); done.
Qed.

(** ** Failures and successes of the API operations *)

(** X5. When the network call itself fails (fetch rejects with message
    [m]), each of the three panels stops being busy, keeps its data and
    shows [m], or its generic text when [m] is empty. *)
Theorem network_failure_is_shown (T : Tool) (w : World T) (id : nat) (m : jsstring) :
  T = DomainTool ∨ T = AuditTool ∨ (∃ env apiKey, T = KeywordTool env apiKey) →
  id ∈ Panel.inflight w →
  let w' := step w (Panel.Settle id (Rejected m)) in
  error_box (render w') = Some (or_else m (fallback T))
  ∧ data w' = data w
  ∧ Panel.loading w' = false.
Proof.
  intros HT Hid w'. unfold w'.
  assert (operation T (Rejected m) = Rejected m ∧ truthy_string (fallback T) = true)
    as [Hop Hfb].
  { destruct HT as [-> | [-> | (env & apiKey & ->)]]; done. }
  split.
  - apply rejected_is_displayed; [done | done | by apply or_else_truthy].
  - rewrite settle_pending by done.
    by destruct (resume_rejected (Panel.forget id w) (Rejected m) m Hop) as (_ & -> & ->).
Qed.

Lemma network_failure_is_shown_witness :
  let w := step (Scenario.typed (T:=AuditTool) () (js "https://example.com")) Click in
  error_box (render (step w (Panel.Settle 0 (Rejected (js "Failed to fetch")))))
    = Some (js "Failed to fetch").
Proof.
  apply (network_failure_is_shown AuditTool
           (step (Scenario.typed (T:=AuditTool) () (js "https://example.com")) Click)
           0%nat (js "Failed to fetch")).
  - right. left. reflexivity.
  - vm_compute. apply list_elem_of_here.
Defined.

(** X6. In the client that forwards the server's detail, an answer whose
    body is not JSON makes every operation fail with the parser's
    message, whatever the status: neither a detail nor the generic text
    is used, and a 2xx status does not make the call succeed. *)
Theorem unparsable_body_surfaces_parser_message {D : Type}
    (res : Response D) (res' : Response object) (m : jsstring) :
  parse_error res = Some m →
  parse_error res' = Some m →
  OpenApi.analyzeDomain (Fulfilled res) = Rejected m
  ∧ OpenApi.researchKeyword (Fulfilled res) = Rejected m
  ∧ OpenApi.auditSite (Fulfilled res) = Rejected m
  ∧ OpenApi.checkout (Fulfilled res') = Rejected m.
Proof.
  intros H H'.
  unfold OpenApi.analyzeDomain, OpenApi.researchKeyword, OpenApi.auditSite,
    OpenApi.checkout.
  rewrite !(when_ok_parse_error res m _ _ H), !(when_ok_parse_error res' m _ _ H').
  destruct (ok (status res)), (ok (status res')); done.
Qed.

Lemma unparsable_body_surfaces_parser_message_witness :
  OpenApi.analyzeDomain (D:=DomainAnalysis)
    (Fulfilled (Scenario.unparsable 502 (js "Unexpected token <")))
    = Rejected (js "Unexpected token <")
  ∧ OpenApi.checkout (Fulfilled (Scenario.unparsable 200 (js "Unexpected token <")))
    = Rejected (js "Unexpected token <").
Proof.
  destruct (unparsable_body_surfaces_parser_message (D:=DomainAnalysis)
              (Scenario.unparsable 502 (js "Unexpected token <"))
              (Scenario.unparsable 200 (js "Unexpected token <"))
              (js "Unexpected token <"))
    as (H1 & _ & _ & H4).
  - reflexivity.
  - reflexivity.
  - split; [exact H1 | exact H4].
Defined.

(** X7. In the client that sends the key, the message of a failed call
    depends on the status alone and the body is never read: analyzeDomain
    reports 401 as 'Invalid API Key', 429 as 'Quota Exceeded' and
    anything else as 'Analysis failed'; the other operations report one
    fixed text each for every failure status. *)
Theorem keyed_failures_depend_on_status_only (res : Response object) :
  ok (status res) = false →
  KeyedApi.analyzeDomain (Fulfilled res)
    = Rejected (if status res =? 401 then js "Invalid API Key"
                else if status res =? 429 then js "Quota Exceeded"
                else js "Analysis failed")
  ∧ KeyedApi.researchKeywords (Fulfilled res) = Rejected (js "Research failed")
  ∧ KeyedApi.auditSite (Fulfilled res) = Rejected (js "Audit failed")
  ∧ KeyedApi.getHistory (Fulfilled res) = Rejected (js "Failed to fetch history")
  ∧ KeyedApi.checkout (Fulfilled res) = Rejected (js "Checkout failed").
Proof.
  intros Hok.
  unfold KeyedApi.analyzeDomain, KeyedApi.researchKeywords, KeyedApi.auditSite,
    KeyedApi.getHistory, KeyedApi.checkout.
  rewrite !(when_ok_not_ok res _ _ Hok).
  repeat split. by destruct (status res =? 401), (status res =? 429).
Qed.

Lemma keyed_failures_depend_on_status_only_witness :
  KeyedApi.analyzeDomain (Fulfilled (Scenario.unparsable (D:=object) 429 (js "not json")))
    = Rejected (js "Quota Exceeded")
  ∧ KeyedApi.getHistory (Fulfilled (Scenario.unparsable (D:=object) 429 (js "not json")))
    = Rejected (js "Failed to fetch history").
Proof.
  destruct (keyed_failures_depend_on_status_only
              (Scenario.unparsable (D:=object) 429 (js "not json")))
    as (H1 & _ & _ & H4 & _).
  - reflexivity.
  - split; [exact H1 | exact H4].
Defined.

Lemma when_ok_fulfilled_iff {D : Type} (res : Response D) (d : D)
    (k_fail : Settled ErrorBody → Settled D) :
  (∀ j, ∃ m, k_fail j = Rejected m) →
  when_ok res (λ j, j) k_fail = Fulfilled d ↔ payload res = Some d.
Proof.
  intros Hk. destruct res as [s j]. unfold payload, when_ok. simpl.
  revert j. destruct (ok s); simpl; intros j.
  - destruct j; split; intros H; by inversion H.
  - destruct (Hk j) as [m ->]. done.
Qed.

Lemma throw_detail_rejects {D : Type} (fallback : jsstring) (j : Settled ErrorBody) :
  ∃ m, OpenApi.throw_detail (D:=D) fallback j = Rejected m.
Proof.
  unfold OpenApi.throw_detail. destruct j as [e | m]; [|by eexists].
  destruct (OpenApi.read_detail e) as [d | m]; [|by eexists].
  destruct (truthy d); [|by eexists].
  destruct (ToString (texts e) d); by eexists.
Qed.

(** X8. The operations that return the body as it is succeed exactly
    when the status is 2xx and the body is JSON, and then with that very
    body: nothing is validated, added or dropped on the way. *)
Theorem body_is_passed_through {D : Type} (res : Response D) (d : D) :
  (OpenApi.analyzeDomain (Fulfilled res) = Fulfilled d ↔ payload res = Some d)
  ∧ (OpenApi.researchKeyword (Fulfilled res) = Fulfilled d ↔ payload res = Some d)
  ∧ (OpenApi.auditSite (Fulfilled res) = Fulfilled d ↔ payload res = Some d)
  ∧ (KeyedApi.analyzeDomain (Fulfilled res) = Fulfilled d ↔ payload res = Some d)
  ∧ (KeyedApi.auditSite (Fulfilled res) = Fulfilled d ↔ payload res = Some d)
  ∧ (KeyedApi.getHistory (Fulfilled res) = Fulfilled d ↔ payload res = Some d).
Proof.
  unfold OpenApi.analyzeDomain, OpenApi.researchKeyword, OpenApi.auditSite,
    KeyedApi.analyzeDomain, KeyedApi.auditSite, KeyedApi.getHistory.
  split; [|split; [|split; [|split; [|split]]]];
    apply when_ok_fulfilled_iff; intros j;
    try apply throw_detail_rejects; try by eexists.
  destruct (status res =? 401), (status res =? 429); by eexists.
Qed.

(** X9. Whatever object a successful /keywords answer carries, the
    result of researchKeywords has a [difficulty] property: it is the
    body's [keyword_difficulty], or [undefined] when the body has none,
    and it replaces any [difficulty] the body had itself.  The result has
    the body's properties and [difficulty], nothing else. *)
Theorem difficulty_is_always_set (res : Response object) (body : object) :
  payload res = Some body →
  ∃ out : object,
    KeyedApi.researchKeywords (Fulfilled res) = Fulfilled out
    ∧ out !! js "difficulty" = Some (get body (js "keyword_difficulty"))
    ∧ (body !! js "keyword_difficulty" = None →
       out !! js "difficulty" = Some VUndefined)
    ∧ dom out = {[ js "difficulty" ]} ∪ dom body.
Proof.
  intros Hbody.
  exists (<[ js "difficulty" := get body (js "keyword_difficulty") ]> body).
  split.
  { unfold KeyedApi.researchKeywords. by rewrite (when_ok_payload res body). }
  split; [apply lookup_insert_eq|].
  split; [|apply dom_insert_L].
  intros Hnone. rewrite lookup_insert_eq. unfold get. by rewrite Hnone.
Qed.

Lemma difficulty_is_always_set_witness :
  ∃ out : object,
    KeyedApi.researchKeywords
      (Fulfilled (Scenario.success
         ({[ js "keyword" := VString (js "ai tools");
             js "difficulty" := VNumber (num 7) ]} : object)))
      = Fulfilled out
    ∧ out !! js "difficulty" = Some VUndefined.
Proof.
  destruct (difficulty_is_always_set
              (Scenario.success
                 ({[ js "keyword" := VString (js "ai tools");
                     js "difficulty" := VNumber (num 7) ]} : object))
              {[ js "keyword" := VString (js "ai tools");
                 js "difficulty" := VNumber (num 7) ]})
    as (out & Hout & _ & Hnone & _).
  - reflexivity.
  - exists out. split; [exact Hout|]. apply Hnone. vm_compute. reflexivity.
Defined.

(** ** Colours and lists of the audit and keyword panels *)

Lemma lt_true_iff (x y : number) : lt x y = true ↔ num_lt x y.
Proof.
  destruct x as [a| |], y as [b| |]; simpl; try tauto;
    try (split; [discriminate | tauto]).
  rewrite Qlt_alt. destruct (a ?= b)%Q; split; intros H; done.
Qed.

Lemma lt_false_iff (x y : number) : lt x y = false ↔ num_le y x.
Proof.
  destruct x as [a| |], y as [b| |]; simpl; try tauto;
    try (split; [discriminate | tauto]).
  rewrite Qle_alt. destruct (b ?= a)%Q eqn:E.
  - apply Qeq_alt in E. assert ((a ?= b)%Q = Eq) as -> by (by apply Qeq_alt).
    split; intros H; done.
  - apply Qlt_alt in E. assert ((a ?= b)%Q = Gt) as ->
      by (by apply Qgt_alt).
    split; intros H; done.
  - apply Qgt_alt in E. assert ((a ?= b)%Q = Lt) as -> by (by apply Qlt_alt).
    split; intros H; done.
Qed.

Lemma num_le_lt_absurd (x y z : number) :
  num_lt x y → num_le y z → num_le z x → False.
Proof.
  intros H1 H2 H3. pose proof (num_lt_le_trans _ _ _ H1 H2) as H.
  by destruct (num_lt_not_le _ _ H H3).
Qed.

(** A class chosen by two [>=] tests against a higher and a lower bound. *)
Lemma ge_tiers (hi lo s : number) (A B C : jsstring) :
  A ≠ B → A ≠ C → B ≠ C →
  num_le lo hi →
  let c := if ge s hi then A else if ge s lo then B else C in
  (c = A ↔ num_le hi s)
  ∧ (c = B ↔ num_le lo s ∧ num_lt s hi)
  ∧ (c = C ↔ num_lt s lo).
Proof.
  intros HAB HAC HBC Hlohi. cbv zeta.
  destruct (ge s hi) eqn:H1;
    [apply ge_true_iff in H1
    |apply ge_false_iff in H1; destruct (ge s lo) eqn:H2;
       [apply ge_true_iff in H2 | apply ge_false_iff in H2]].
  - split; [done|]. split; split; try congruence.
    + intros [_ H]. absurd_order.
    + intros H. destruct (num_le_lt_absurd _ _ _ H Hlohi H1).
  - split; [|split]; split; try congruence; try done.
    + intros H. absurd_order.
    + intros H. absurd_order.
  - split; [|split]; split; try congruence; try done.
    + intros H. absurd_order.
    + intros [H _]. absurd_order.
Qed.

(** A class chosen by two [<] tests against a lower and a higher bound. *)
Lemma lt_tiers (lo hi s : number) (A B C : jsstring) :
  A ≠ B → A ≠ C → B ≠ C →
  num_le lo hi →
  let c := if lt s lo then A else if lt s hi then B else C in
  (c = A ↔ num_lt s lo)
  ∧ (c = B ↔ num_le lo s ∧ num_lt s hi)
  ∧ (c = C ↔ num_le hi s).
Proof.
  intros HAB HAC HBC Hlohi. cbv zeta.
  destruct (lt s lo) eqn:H1;
    [apply lt_true_iff in H1
    |apply lt_false_iff in H1; destruct (lt s hi) eqn:H2;
       [apply lt_true_iff in H2 | apply lt_false_iff in H2]].
  - split; [done|]. split; split; try congruence.
    + intros [H _]. absurd_order.
    + intros H. destruct (num_le_lt_absurd _ _ _ H1 Hlohi H).
  - split; [|split]; split; try congruence; try done.
    + intros H. absurd_order.
    + intros H. absurd_order.
  - split; [|split]; split; try congruence; try done.
    + intros H. absurd_order.
    + intros [_ H]. absurd_order.
Qed.

(** X10. The audit panel shows the health score itself and the three
    counters of the response, and colours the score green exactly from
    80 up, yellow exactly from 50 up to but not including 80, and red
    exactly below 50. *)
Theorem health_score_is_shown_in_its_tier (r : AuditResult) :
  let h := render_audit_header r in
  header_score h = health_score r
  ∧ header_passed h = passed r
  ∧ header_warnings h = warnings r
  ∧ header_issues h = issues_count r
  ∧ (header_class h = js "text-green" ↔ num_le (num 80) (health_score r))
  ∧ (header_class h = js "text-yellow"
     ↔ num_le (num 50) (health_score r) ∧ num_lt (health_score r) (num 80))
  ∧ (header_class h = js "text-red" ↔ num_lt (health_score r) (num 50)).
Proof.
  cbv zeta. repeat (split; [reflexivity|]).
  apply (ge_tiers (num 80) (num 50) (health_score r)); discriminate.
Qed.

(** X11. [getDifficultyColor] is green exactly below 35, yellow exactly
    from 35 up to but not including 60, and red exactly from 60 up. *)
Theorem difficulty_colour_tiers (score : number) :
  (getDifficultyColor score = js "text-green" ↔ num_lt score (num 35))
  ∧ (getDifficultyColor score = js "text-yellow"
     ↔ num_le (num 35) score ∧ num_lt score (num 60))
  ∧ (getDifficultyColor score = js "text-red" ↔ num_le (num 60) score).
Proof.
  apply (lt_tiers (num 35) (num 60) score); discriminate.
Qed.

Lemma filter_items_of_type (t t' : ItemType) (l : list AuditCheck) :
  filter (λ it, item_type it = t) (map (audit_item t') l)
    = if decide (t' = t) then map (audit_item t') l else [].
Proof.
  induction l as [|c l IH]; simpl; [by destruct (decide (t' = t))|].
  rewrite filter_cons, IH. simpl.
  destruct (decide (t' = t)); done.
Qed.

Lemma items_of_type_sorted (t : ItemType) (l : list AuditCheck) :
  StronglySorted (λ a b, severity (item_type a) ≤ severity (item_type b))%nat
    (map (audit_item t) l).
Proof.
  induction l as [|c l IH]; simpl; constructor; [done|].
  apply Forall_forall. intros it Hit.
  apply list_elem_of_In, in_map_iff in Hit as (c' & <- & _). done.
Qed.

(** X12. The audit panel lists the checks by severity: all issues come
    first, then all warnings, then all passed checks.  The entries marked
    as errors are exactly the response's issues in their order, those
    marked as warnings exactly its warnings, those marked as passed
    exactly its passed checks; nothing is dropped or repeated. *)
Theorem audit_checks_are_listed_by_severity (r : AuditResult) :
  let items := render_checks r in
  StronglySorted (λ a b, severity (item_type a) ≤ severity (item_type b))%nat items
  ∧ filter (λ it, item_type it = item_error) items
    = map (audit_item item_error) (checks_issues (checks r))
  ∧ filter (λ it, item_type it = item_warn) items
    = map (audit_item item_warn) (checks_warnings (checks r))
  ∧ filter (λ it, item_type it = item_pass) items
    = map (audit_item item_pass) (checks_passed (checks r))
  ∧ length items
    = (length (checks_issues (checks r)) + length (checks_warnings (checks r))
       + length (checks_passed (checks r)))%nat.
Proof.
  cbv zeta. unfold render_checks.
  split; [|split; [|split; [|split]]].
  - apply StronglySorted_app_2; [| apply items_of_type_sorted |].
    + intros a b Ha Hb.
      apply list_elem_of_In, in_map_iff in Ha as (c & <- & _).
      apply elem_of_app in Hb as [Hb | Hb];
        apply list_elem_of_In, in_map_iff in Hb as (c' & <- & _); simpl; lia.
    + apply StronglySorted_app_2; [| apply items_of_type_sorted..].
      intros a b Ha Hb.
      apply list_elem_of_In, in_map_iff in Ha as (c & <- & _).
      apply list_elem_of_In, in_map_iff in Hb as (c' & <- & _). simpl. lia.
  - rewrite !filter_app, !filter_items_of_type. simpl. by rewrite !app_nil_r.
  - rewrite !filter_app, !filter_items_of_type. simpl. by rewrite !app_nil_r.
  - rewrite !filter_app, !filter_items_of_type. done.
  - rewrite !length_app, !length_map. lia.
Qed.

(** ** The access gate along sequences of events *)

Lemma trim_truthy_nonempty (s : jsstring) : truthy_string (trim s) = true → s ≠ [].
Proof. intros H ->. discriminate H. Qed.

Lemma in_sync_mount (storage : gmap jsstring jsstring) :
  in_sync (Gate.on_mount (Gate.initial storage)).
Proof.
  unfold in_sync, Gate.on_mount. simpl.
  destruct (storage !! Gate.storage_key) as [k|] eqn:E; simpl; [|by left].
  destruct k as [|c k]; simpl; rewrite E; [by right | done].
Qed.

Lemma in_sync_step (h : Gate.Home) (e : GateMachine.Event) :
  in_sync h → in_sync (GateMachine.step h e).
Proof.
  unfold in_sync. intros Hh.
  destruct e as [s | | | t]; simpl;
    destruct (Gate.isAuthenticated h) eqn:Ha; simpl; rewrite ?Ha; try done.
  - unfold Gate.handleLogin.
    destruct (truthy_string (trim (Gate.apiKey h))) eqn:Ht; simpl; rewrite ?Ha;
      [|done].
    split; [apply lookup_insert_eq | by apply trim_truthy_nonempty].
  - left. apply lookup_delete_eq.
Qed.

Lemma in_sync_visit (storage : gmap jsstring jsstring) (es : list GateMachine.Event) :
  in_sync (GateMachine.visit storage es).
Proof.
  unfold GateMachine.visit.
  induction es as [|e es IH] using rev_ind; [apply in_sync_mount|].
  rewrite foldl_snoc. by apply in_sync_step.
Qed.

(** X13. Whatever was in the browser storage when the page was loaded
    and whatever the user does afterwards (typing, submitting, logging
    out, switching tabs), the page is authenticated exactly when a
    non-empty key is stored, and the key handed to the panels is then the
    stored one. *)
Theorem gate_agrees_with_storage (storage : gmap jsstring jsstring)
    (es : list GateMachine.Event) :
  let h := GateMachine.visit storage es in
  (Gate.isAuthenticated h = true
   ↔ ∃ k, Gate.localStorage h !! Gate.storage_key = Some k ∧ k ≠ [])
  ∧ (Gate.isAuthenticated h = true →
     Gate.localStorage h !! Gate.storage_key = Some (Gate.apiKey h)).
Proof.
  cbv zeta. pose proof (in_sync_visit storage es) as H. unfold in_sync in H.
  destruct (Gate.isAuthenticated (GateMachine.visit storage es)).
  - destruct H as [H1 H2]. split; [|done]. split; [eauto | done].
  - split; [|done]. split; [done|].
    intros (k & Hk & Hne). destruct H as [H | H]; rewrite H in Hk; by inversion Hk.
Qed.

(** X14. Reloading the page at any moment restores the session: the
    reloaded page is authenticated exactly if the page was, and with the
    same key. *)
Theorem reload_restores_session (storage : gmap jsstring jsstring)
    (es : list GateMachine.Event) :
  let h := GateMachine.visit storage es in
  let h' := GateMachine.visit (Gate.localStorage h) [] in
  Gate.isAuthenticated h' = Gate.isAuthenticated h
  ∧ (Gate.isAuthenticated h = true → Gate.apiKey h' = Gate.apiKey h).
Proof.
  cbv zeta. pose proof (in_sync_visit storage es) as H.
  set (h := GateMachine.visit storage es) in *. clearbody h.
  unfold GateMachine.visit, in_sync in *. cbn [foldl].
  unfold Gate.on_mount. simpl.
  destruct (Gate.isAuthenticated h).
  - destruct H as [-> Hne]. by rewrite (proj2 (truthy_string_nonempty _) Hne).
  - destruct H as [-> | ->]; done.
Qed.

Lemma gate_frame_step (h : Gate.Home) (e : GateMachine.Event) (k : jsstring) :
  k ≠ Gate.storage_key →
  Gate.localStorage (GateMachine.step h e) !! k = Gate.localStorage h !! k
  ∧ Gate.network (GateMachine.step h e) = Gate.network h.
Proof.
  intros Hk. destruct e as [s | | | t]; simpl;
    destruct (Gate.isAuthenticated h); simpl; try done.
  - unfold Gate.handleLogin.
    destruct (truthy_string (trim (Gate.apiKey h))); simpl; [|done].
    by rewrite lookup_insert_ne.
  - by rewrite lookup_delete_ne.
Qed.

(** X15. The gate touches nothing but its own storage entry: every other
    entry of the browser storage is as it was when the page was loaded,
    and the page sends no request, whatever the user does. *)
Theorem gate_touches_only_its_key (storage : gmap jsstring jsstring)
    (es : list GateMachine.Event) (k : jsstring) :
  k ≠ Gate.storage_key →
  Gate.localStorage (GateMachine.visit storage es) !! k = storage !! k
  ∧ Gate.network (GateMachine.visit storage es) = [].
Proof.
  intros Hk. unfold GateMachine.visit.
  induction es as [|e es [IH1 IH2]] using rev_ind.
  - simpl. unfold Gate.on_mount. simpl.
    destruct (storage !! Gate.storage_key) as [s|]; [|done].
    by destruct (truthy_string s).
  - rewrite foldl_snoc.
    destruct (gate_frame_step (foldl GateMachine.step
                (Gate.on_mount (Gate.initial storage)) es) e k Hk) as [-> ->].
    done.
Qed.

Lemma gate_touches_only_its_key_witness :
  Gate.localStorage
    (GateMachine.visit {[ js "theme" := js "dark" ]}
       [GateMachine.TypeKey (js "seo_live_42"); GateMachine.Submit;
        GateMachine.Logout]) !! js "theme"
    = Some (js "dark").
Proof.
  rewrite (proj1 (gate_touches_only_its_key {[ js "theme" := js "dark" ]}
             [GateMachine.TypeKey (js "seo_live_42"); GateMachine.Submit;
              GateMachine.Logout] (js "theme") ltac:(discriminate))).
  vm_compute. reflexivity.
Defined.

(** X16. Loading and logging in do not apply the same test: a stored key
    made of white space only is accepted when the page loads, although
    the login form refuses the same text. *)
Theorem stored_blank_key_is_accepted (s : jsstring) :
  s ≠ [] →
  (∀ c, c ∈ s → is_white_space c = true) →
  let loaded := GateMachine.visit {[ Gate.storage_key := s ]} [] in
  let typed := Gate.login_with s (Gate.initial ∅) in
  Gate.isAuthenticated loaded = true
  ∧ Gate.apiKey loaded = s
  ∧ Gate.isAuthenticated typed = false.
Proof.
  intros Hne Hws. cbv zeta.
  unfold GateMachine.visit. cbn [foldl]. unfold Gate.on_mount. simpl.
  rewrite lookup_singleton_eq.
  rewrite (proj2 (truthy_string_nonempty s) Hne). simpl.
  split; [done|]. split; [done|].
  unfold Gate.login_with, Gate.handleLogin. simpl.
  apply trim_empty_iff in Hws. by rewrite Hws.
Qed.

Lemma stored_blank_key_is_accepted_witness :
  Gate.isAuthenticated (GateMachine.visit {[ Gate.storage_key := js " " ]} []) = true
  ∧ Gate.apiKey (GateMachine.visit {[ Gate.storage_key := js " " ]} []) = js " "
  ∧ Gate.isAuthenticated (Gate.login_with (js " ") (Gate.initial ∅)) = false.
Proof.
  apply (stored_blank_key_is_accepted (js " ")).
  - discriminate.
  - intros c Hc. vm_compute in Hc.
    apply list_elem_of_singleton in Hc as ->. reflexivity.
Defined.

(** ** Pricing with an immediate checkout, along sequences of events *)

Section PricingTraces.
Variable env : option jsstring.

Lemma pricing_calls_resume (w : Pricing.World) (fetched : Settled (Response object)) :
  Pricing.calls (Pricing.resume w fetched) = Pricing.calls w.
Proof. unfold Pricing.resume. by destruct (KeyedApi.checkout fetched). Qed.

Lemma pricing_calls_step (w : Pricing.World) (e : Pricing.Event) :
  Pricing.calls (Pricing.step env w e) = Pricing.calls w
  ∨ ∃ p, p ∈ Pricing.SUBSCRIPTION_PLANS
         ∧ Pricing.calls (Pricing.step env w e) = Pricing.calls w ++
             [KeyedApi.checkout_request env (plan_id p) (js "user@example.com")].
Proof.
  destruct e as [i | id fetched]; simpl.
  - destruct (Pricing.SUBSCRIPTION_PLANS !! i) as [p|] eqn:E; [|by left].
    case_bool_decide; [by left|]. right. exists p.
    split; [by eapply list_elem_of_lookup_2|done].
  - left. case_bool_decide; [|done]. by rewrite pricing_calls_resume.
Qed.

End PricingTraces.

(** X17. On the pricing page with the immediate checkout, the button of
    a plan is dead while that plan is the one loading: a second click on
    it changes nothing and sends nothing.  The guard is per plan: a click
    on a different plan's button meanwhile sends a second checkout call. *)
Theorem checkout_button_guard_is_per_plan (env : option jsstring)
    (w : Pricing.World) (i j : nat) (p q : Plan) :
  Pricing.SUBSCRIPTION_PLANS !! i = Some p →
  Pricing.SUBSCRIPTION_PLANS !! j = Some q →
  plan_id p ≠ plan_id q →
  let w1 := Pricing.step env w (Pricing.ClickPlan i) in
  Pricing.step env w1 (Pricing.ClickPlan i) = w1
  ∧ Pricing.calls (Pricing.step env w1 (Pricing.ClickPlan j))
    = Pricing.calls w1 ++
        [KeyedApi.checkout_request env (plan_id q) (js "user@example.com")]
  ∧ Pricing.inflight (Pricing.step env w1 (Pricing.ClickPlan j))
    = Pricing.inflight w1 ++ [length (Pricing.calls w1)].
Proof.
  intros Hp Hq Hne. cbv zeta.
  assert (Pricing.loading (Pricing.step env w (Pricing.ClickPlan i))
          = Some (plan_id p)) as Hl.
  { simpl. rewrite Hp. by case_bool_decide. }
  set (w1 := Pricing.step env w (Pricing.ClickPlan i)) in *. clearbody w1.
  split; [|split]; cbn [Pricing.step].
  - rewrite Hp, bool_decide_eq_true_2 by done. done.
  - rewrite Hq, bool_decide_eq_false_2 by (rewrite Hl; congruence). done.
  - rewrite Hq, bool_decide_eq_false_2 by (rewrite Hl; congruence). done.
Qed.

Lemma checkout_button_guard_is_per_plan_witness :
  let w1 := Pricing.step None Pricing.initial (Pricing.ClickPlan 0) in
  Pricing.step None w1 (Pricing.ClickPlan 0) = w1
  ∧ Pricing.inflight (Pricing.step None w1 (Pricing.ClickPlan 2)) = [0%nat; 1%nat].
Proof.
  destruct (checkout_button_guard_is_per_plan None Pricing.initial 0 2
              {| plan_id := js "starter"; plan_name := js "Starter"; price := 29;
                 interval := js "month";
                 features := [js "10 Domain Analysis/mo";
                              js "Basic Keyword Research"; js "Email Support"] |}
              {| plan_id := js "agency"; plan_name := js "Agency"; price := 199;
                 interval := js "month";
                 features := [js "White Label Reports"; js "API Access";
                              js "Dedicated Account Manager"] |})
    as (H1 & _ & H3).
  - reflexivity.
  - reflexivity.
  - discriminate.
  - split; [exact H1 | exact H3].
Defined.

(** X18. Whatever is clicked and whatever answers arrive, every checkout
    call of that page is for the id of a plan of the catalogue and
    carries the fixed address 'user@example.com'. *)
Theorem immediate_checkout_uses_placeholder_address (env : option jsstring)
    (es : list Pricing.Event) :
  Forall (λ r, ∃ p, p ∈ Pricing.SUBSCRIPTION_PLANS
                 ∧ r = KeyedApi.checkout_request env (plan_id p) (js "user@example.com")
                 ∧ body r !! js "email" = Some (VString (js "user@example.com")))
    (Pricing.calls (foldl (Pricing.step env) Pricing.initial es)).
Proof.
  induction es as [|e es IH] using rev_ind; [constructor|].
  rewrite foldl_snoc.
  destruct (pricing_calls_step env (foldl (Pricing.step env) Pricing.initial es) e)
    as [-> | (p & Hp & ->)]; [done|].
  apply Forall_app. split; [done|]. apply Forall_singleton.
  exists p. split; [done|]. split; [done|].
  unfold KeyedApi.checkout_request. cbn [body].
  rewrite lookup_insert_ne by discriminate. apply lookup_insert_eq.
Qed.

(** X19. When the checkout call of that page fails, the user is shown
    nothing: the failure goes to the console only, no navigation takes
    place, no alert is raised and the button is released.  For a failure
    status the logged message is always 'Checkout failed'; for a network
    failure it is the network error's message. *)
Theorem immediate_checkout_failure_is_only_logged (env : option jsstring)
    (w : Pricing.World) (id : nat) (res : Response object) (m : jsstring) :
  id ∈ Pricing.inflight w →
  ok (status res) = false →
  let failed := Pricing.step env w (Pricing.Settle id (Fulfilled res)) in
  let offline := Pricing.step env w (Pricing.Settle id (Rejected m)) in
  Pricing.console failed = Pricing.console w ++ [js "Checkout failed"]
  ∧ Pricing.console offline = Pricing.console w ++ [m]
  ∧ Pricing.href failed = Pricing.href w ∧ Pricing.href offline = Pricing.href w
  ∧ Pricing.alerts failed = Pricing.alerts w ∧ Pricing.alerts offline = Pricing.alerts w
  ∧ Pricing.loading failed = None ∧ Pricing.loading offline = None.
Proof.
  intros Hid Hok. cbv zeta.
  rewrite !pricing_settle_pending by done.
  unfold Pricing.resume, KeyedApi.checkout.
  rewrite (when_ok_not_ok res _ _ Hok). done.
Qed.

Lemma immediate_checkout_failure_is_only_logged_witness :
  Pricing.console
    (Pricing.step None (Scenario.checking_out None)
       (Pricing.Settle 0 (Fulfilled (Scenario.unauthorized (Some (js "No such plan"))))))
    = [js "Checkout failed"].
Proof.
  apply (immediate_checkout_failure_is_only_logged None (Scenario.checking_out None)
           0%nat (Scenario.unauthorized (Some (js "No such plan"))) []).
  - vm_compute. apply list_elem_of_here.
  - reflexivity.
Defined.

(** ** Pricing with a confirmation dialog, along sequences of events *)

Lemma modal_orderly_initial : modal_orderly PricingModal.initial.
Proof.
  unfold modal_orderly. simpl. split; [lia|]. split.
  - split; [discriminate | intros H; by destruct H].
  - split; [discriminate | constructor].
Qed.

Lemma modal_orderly_step (w : PricingModal.World) (e : PricingModal.Event) :
  modal_orderly w → modal_orderly (PricingModal.step w e).
Proof.
  unfold modal_orderly. intros (Hlen & Hiff & Hopen & Hcalls).
  destruct e as [i | | s | | id fetched]; simpl.
  - destruct (PricingModal.plans !! i) as [name|] eqn:E; [|done]. simpl.
    split; [done|]. split; [done|]. split; [|done].
    intros _. by eapply list_elem_of_lookup_2.
  - split; [done|]. split; [done|]. split; [discriminate|done].
  - destruct (PricingModal.isModalOpen w) eqn:Ho; simpl; rewrite ?Ho; done.
  - destruct (PricingModal.isModalOpen w) eqn:Ho; simpl; rewrite ?Ho; [|done].
    destruct (PricingModal.loading w) eqn:Hl; simpl; rewrite ?Ho, ?Hl; [done|].
    unfold PricingModal.handleCheckout.
    destruct (negb (truthy_string (PricingModal.email w))
              || negb (includes (PricingModal.email w) (js "@"))) eqn:Hg; simpl.
    + rewrite Hl, Ho. done.
    + assert (PricingModal.inflight w = []) as Hnone.
      { destruct (PricingModal.inflight w) as [|x l] eqn:E; [done|].
        assert (false = true) by (by apply Hiff). done. }
      rewrite Hnone, Ho. simpl.
      split; [lia|]. split; [done|]. split; [done|].
      apply Forall_app. split; [done|]. apply Forall_singleton.
      exists (PricingModal.selectedPlan w), (PricingModal.email w).
      split; [by apply Hopen|]. split; [by apply modal_guard|done].
  - case_bool_decide as Hid; [|done].
    destruct (PricingModal.inflight w) as [|x [|y l]] eqn:E; simpl in Hlen; [| |lia].
    + by apply elem_of_nil in Hid.
    + apply list_elem_of_singleton in Hid as ->.
      assert (filter (λ i0 : nat, i0 ≠ x) [x] = []) as Hf.
      { rewrite filter_cons, decide_False by (intros H; by apply H).
        apply filter_nil. }
      unfold PricingModal.resume.
      destruct (OpenApi.checkout fetched); simpl; rewrite E, Hf; simpl;
        (split; [lia|]); (split; [split; [discriminate | intros H; by destruct H]|]);
        done.
Qed.

Lemma modal_orderly_run (es : list PricingModal.Event) :
  modal_orderly (foldl PricingModal.step PricingModal.initial es).
Proof.
  induction es as [|e es IH] using rev_ind; [apply modal_orderly_initial|].
  rewrite foldl_snoc. by apply modal_orderly_step.
Qed.

(** X20. In the dialog variant, whatever the user does and whatever
    answers arrive, at most one checkout call is pending at any time, and
    the continue button is disabled exactly while one is. *)
Theorem dialog_keeps_one_checkout_pending (es : list PricingModal.Event) :
  let w := foldl PricingModal.step PricingModal.initial es in
  (length (PricingModal.inflight w) ≤ 1)%nat
  ∧ (PricingModal.loading w = true ↔ PricingModal.inflight w ≠ []).
Proof.
  cbv zeta. by destruct (modal_orderly_run es) as (? & ? & _).
Qed.

(** X21. In the dialog variant, whatever the user does, every checkout
    call ever made is for the lower-cased name of one of the three plans
    ('starter', 'professional' or 'agency') and for an address that
    contains an @. *)
Theorem dialog_calls_are_for_listed_plans (es : list PricingModal.Event) :
  Forall (λ r, ∃ plan address,
                plan ∈ [js "starter"; js "professional"; js "agency"]
                ∧ 64 ∈ address
                ∧ r = OpenApi.checkout_request plan address)
    (PricingModal.calls (foldl PricingModal.step PricingModal.initial es)).
Proof.
  destruct (modal_orderly_run es) as (_ & _ & _ & H).
  eapply Forall_impl; [exact H|].
  intros r (name & address & Hname & Hat & ->).
  exists (toLowerCase name), address. split; [|done].
  unfold PricingModal.plans in Hname.
  repeat (apply elem_of_cons in Hname as [-> | Hname];
          [vm_compute; set_solver|]).
  by apply elem_of_nil in Hname.
Qed.

(** X22. In the dialog variant a checkout that gets a failure status is
    reported by one alert and nothing else: 'Checkout failed: ' followed
    by the message the client reports, which is the body's detail when
    that is a non-empty string, 'Checkout failed' when the detail is
    falsy or missing or the body is not an object, [String] of the detail
    when it is truthy and not a string (so "[object Object]" for a list
    of one object), the TypeError's message for the body [null], and the
    parser's message when the body is not JSON.  No navigation takes
    place, nothing is logged, the button is released and the dialog
    stays as it was. *)
Theorem dialog_checkout_failure_is_alerted (w : PricingModal.World) (id : nat)
    (res : Response object) :
  id ∈ PricingModal.inflight w →
  ok (status res) = false →
  let w' := PricingModal.step w (PricingModal.Settle id (Fulfilled res)) in
  ∃ m,
    OpenApi.checkout (Fulfilled res) = Rejected m
    ∧ reports_detail res (js "Checkout failed") (Rejected m)
    ∧ PricingModal.alerts w' = PricingModal.alerts w ++ [js "Checkout failed: " ++ m]
    ∧ PricingModal.href w' = PricingModal.href w
    ∧ PricingModal.console w' = PricingModal.console w
    ∧ PricingModal.loading w' = false
    ∧ PricingModal.isModalOpen w' = PricingModal.isModalOpen w.
Proof.
  intros Hid Hok. cbv zeta.
  pose proof (throw_detail_reports res (js "Checkout failed") Hok) as Hrep.
  destruct (throw_detail_always_rejects res (js "Checkout failed") Hok) as [m Hm].
  rewrite Hm in Hrep.
  exists m. split; [exact Hm|]. split; [exact Hrep|].
  rewrite modal_settle_pending by done.
  unfold PricingModal.resume, OpenApi.checkout. rewrite Hm. done.
Qed.

Lemma dialog_checkout_failure_is_alerted_witness :
  PricingModal.alerts
    (PricingModal.step (Scenario.confirming (js "name@company.com"))
       (PricingModal.Settle 0 (Fulfilled (Scenario.unauthorized None))))
    = [js "Checkout failed: Checkout failed"]
  ∧ PricingModal.alerts
      (PricingModal.step (Scenario.confirming (js "name@company.com"))
         (PricingModal.Settle 0
            (Fulfilled (Scenario.unauthorized_with
               (VObject {[ js "detail" := VArray [VObject ∅] ]})))))
    = [js "Checkout failed: [object Object]"].
Proof.
  assert (0%nat ∈ PricingModal.inflight (Scenario.confirming (js "name@company.com")))
    as Hid by (vm_compute; apply list_elem_of_here).
  split.
  - destruct (dialog_checkout_failure_is_alerted
                (Scenario.confirming (js "name@company.com")) 0%nat
                (Scenario.unauthorized None) Hid eq_refl)
      as (m & Hm & _ & -> & _).
    vm_compute in Hm. inversion Hm. reflexivity.
  - destruct (dialog_checkout_failure_is_alerted
                (Scenario.confirming (js "name@company.com")) 0%nat
                (Scenario.unauthorized_with
                   (VObject {[ js "detail" := VArray [VObject ∅] ]}))
                Hid eq_refl)
      as (m & Hm & _ & -> & _).
    vm_compute in Hm. inversion Hm. reflexivity.
Defined.

(** ** The checkout route *)

Lemma json_value_defined (v : value) : is_Some (json_value v) ↔ v ≠ VUndefined.
Proof.
  destruct v as [| | b | [q| |] | s | l | o]; simpl; split; try done;
    try (intros _; by eexists); try by intros [? ?].
Qed.

Lemma route_POST_body_lookup (a b : value) :
  route_POST_body a b !! js "sessionId" = json_value a
  ∧ route_POST_body a b !! js "url" = json_value b
  ∧ (∀ k, k ≠ js "sessionId" → k ≠ js "url" → route_POST_body a b !! k = None).
Proof.
  unfold route_POST_body. split; [|split].
  - by rewrite lookup_omap, lookup_insert_eq.
  - rewrite lookup_omap, lookup_insert_ne by discriminate.
    by rewrite lookup_singleton_eq.
  - intros k H1 H2. rewrite lookup_omap, lookup_insert_ne by done.
    by rewrite lookup_singleton_ne.
Qed.

(** X23. The route always answers and never lets a failure escape: the
    status is 200 exactly when the request body could be read and Stripe
    created the session; in every other case the status is 500 and the
    body is [{error}] with the message of what failed.  On success the
    answer holds the session's id as [sessionId] and its url as [url],
    each as it is after JSON encoding and each left out when it is
    [undefined], and no other property. *)
Theorem route_answers_200_or_500 (req_json : Settled object)
    (origin : option jsstring) (create : Route.SessionParams → Settled Route.Session) :
  let res := Route.POST req_json origin create in
  (Route.response_status res = 200
   ↔ ∃ req_body session,
       req_json = Fulfilled req_body
       ∧ create (Route.session_params req_body origin) = Fulfilled session
       ∧ Route.response_body res
         = route_POST_body (Route.session_id session) (Route.session_url session))
  ∧ (Route.response_status res ≠ 200 →
     Route.response_status res = 500
     ∧ ∃ m, Route.response_body res = {[ js "error" := VString m ]})
  ∧ (∀ req_body session,
       req_json = Fulfilled req_body →
       create (Route.session_params req_body origin) = Fulfilled session →
       Route.response_body res !! js "sessionId"
         = json_value (Route.session_id session)
       ∧ Route.response_body res !! js "url"
         = json_value (Route.session_url session)
       ∧ (is_Some (Route.response_body res !! js "sessionId")
          ↔ Route.session_id session ≠ VUndefined)
       ∧ (is_Some (Route.response_body res !! js "url")
          ↔ Route.session_url session ≠ VUndefined)
       ∧ (∀ k, k ≠ js "sessionId" → k ≠ js "url" →
            Route.response_body res !! k = None)).
Proof.
  cbv zeta. unfold Route.POST.
  destruct req_json as [req_body | m]; simpl.
  - destruct (create (Route.session_params req_body origin)) as [session | m] eqn:E;
      simpl.
    + split; [|split].
      * split; [|done]. intros _. by exists req_body, session.
      * done.
      * intros b s Hb Hs. inversion Hb; subst b.
        rewrite E in Hs. inversion Hs; subst s.
        destruct (route_POST_body_lookup (Route.session_id session)
                    (Route.session_url session)) as (H1 & H2 & H3).
        rewrite H1, H2, !json_value_defined. done.
    + split; [|split].
      * split; [discriminate|]. intros (b & s & Hb & Hs & _).
        inversion Hb; subst. congruence.
      * intros _. eauto.
      * intros b s Hb Hs. inversion Hb; subst b. congruence.
  - split; [|split].
    + split; [discriminate|]. intros (b & s & Hb & _). discriminate.
    + intros _. eauto.
    + intros b s Hb. discriminate.
Qed.

(** X24. The price the route hands to Stripe is the request's [priceId]
    and nothing else.  The body the API clients send for a checkout has
    [plan] and [email]: for it the price is [undefined], while the
    customer address is the one sent. *)
Theorem route_reads_priceId_not_plan (env origin : option jsstring)
    (plan address : jsstring) :
  let keyed := Route.session_params
                 (body (KeyedApi.checkout_request env plan address)) origin in
  let open := Route.session_params
                (body (OpenApi.checkout_request plan address)) origin in
  Route.line_items keyed = [(VUndefined, 1)]
  ∧ Route.customer_email keyed = VString address
  ∧ Route.line_items open = [(VUndefined, 1)]
  ∧ Route.customer_email open = VString address.
Proof.
  cbv zeta. unfold Route.session_params, KeyedApi.checkout_request,
    OpenApi.checkout_request, get. cbn [body Route.line_items Route.customer_email].
  assert (({[ js "plan" := VString plan; js "email" := VString address ]} : object)
            !! js "priceId" = None) as ->.
  { rewrite lookup_insert_ne by discriminate.
    rewrite lookup_singleton_ne by discriminate. done. }
  assert (({[ js "plan" := VString plan; js "email" := VString address ]} : object)
            !! js "email" = Some (VString address)) as ->.
  { rewrite lookup_insert_ne by discriminate. apply lookup_singleton_eq. }
  done.
Qed.

(** X25. What the route answers on success never makes a pricing
    component navigate: served with that body as the checkout result,
    both components leave [window.location.href] alone, raise no alert,
    log nothing and release the button. *)
Theorem route_answer_is_never_followed (env origin : option jsstring)
    (req_json : Settled object) (create : Route.SessionParams → Settled Route.Session)
    (w : Pricing.World) (m : PricingModal.World) (id : nat) (res : Response object) :
  Route.response_status (Route.POST req_json origin create) = 200 →
  payload res = Some (Route.response_body (Route.POST req_json origin create)) →
  (id ∈ Pricing.inflight w →
   let w' := Pricing.step env w (Pricing.Settle id (Fulfilled res)) in
   Pricing.href w' = Pricing.href w
   ∧ Pricing.console w' = Pricing.console w
   ∧ Pricing.alerts w' = Pricing.alerts w
   ∧ Pricing.loading w' = None)
  ∧ (id ∈ PricingModal.inflight m →
     let m' := PricingModal.step m (PricingModal.Settle id (Fulfilled res)) in
     PricingModal.href m' = PricingModal.href m
     ∧ PricingModal.console m' = PricingModal.console m
     ∧ PricingModal.alerts m' = PricingModal.alerts m
     ∧ PricingModal.loading m' = false).
Proof.
  intros Hst Hbody.
  assert (truthy (get (Route.response_body (Route.POST req_json origin create))
                    (js "checkout_url")) = false) as Ht.
  { revert Hst. unfold Route.POST.
    destruct req_json as [b | e]; simpl; [|discriminate].
    destruct (create (Route.session_params b origin)); simpl; [|discriminate].
    intros _. unfold get.
    destruct (route_POST_body_lookup (Route.session_id a) (Route.session_url a))
      as (_ & _ & Hother).
    by rewrite Hother by discriminate. }
  destruct (checkout_fulfilled _ _ Hbody) as [Hk Ho].
  split; intros Hid; cbv zeta.
  - rewrite pricing_settle_pending by done.
    unfold Pricing.resume. rewrite Hk.
    cbn [Pricing.href Pricing.console Pricing.alerts Pricing.loading].
    by rewrite Ht.
  - rewrite modal_settle_pending by done.
    unfold PricingModal.resume. rewrite Ho.
    cbn [PricingModal.href PricingModal.console PricingModal.alerts
         PricingModal.loading].
    by rewrite Ht.
Qed.

Lemma route_answer_is_never_followed_witness :
  let create := λ _ : Route.SessionParams,
    Fulfilled {| Route.session_id := VString (js "cs_test_a1");
                 Route.session_url := VString (js "https://checkout.stripe.com/c/pay/cs_test_a1") |} in
  let answer := Route.POST
                  (Fulfilled ({[ js "priceId" := VString (js "price_pro") ]} : object))
                  (Some (js "https://seo.example")) create in
  Pricing.href
    (Pricing.step None (Scenario.checking_out None)
       (Pricing.Settle 0 (Fulfilled (Scenario.success (Route.response_body answer)))))
    = None.
Proof.
  cbv zeta.
  apply (route_answer_is_never_followed None (Some (js "https://seo.example"))
           (Fulfilled ({[ js "priceId" := VString (js "price_pro") ]} : object))
           (λ _, Fulfilled
              {| Route.session_id := VString (js "cs_test_a1");
                 Route.session_url :=
                   VString (js "https://checkout.stripe.com/c/pay/cs_test_a1") |})
           (Scenario.checking_out None)
           (Scenario.confirming (js "name@company.com")) 0%nat
           (Scenario.success _)).
  - reflexivity.
  - reflexivity.
  - vm_compute. apply list_elem_of_here.
Defined.

(** ** The rows of the domain panel *)

(** X26. The six rows under the score of the domain panel are marked as
    follows.  Title and description are good when not empty and bad (with
    the text 'Missing') when empty; the title length is good exactly from
    10 to 70 and a warning otherwise, never bad; the H1 count is good
    exactly when it is 1 and bad otherwise; Open Graph and schema markup
    are good when present and a warning when missing, never bad. *)
Theorem meta_rows_are_marked_by_their_rules (d : DomainAnalysis) :
  ∃ t tl md h1 og sm,
    meta_items d = [t; tl; md; h1; og; sm]
    ∧ (meta_status t = good ↔ title d ≠ [])
    ∧ (meta_status t = bad ↔ title d = [] ∧ meta_value t = Text (js "Missing"))
    ∧ (meta_status tl = good
       ↔ num_le (num 10) (title_length d) ∧ num_le (title_length d) (num 70))
    ∧ meta_status tl ≠ bad
    ∧ (meta_status md = good ↔ meta_description d ≠ [])
    ∧ (meta_status md = bad
       ↔ meta_description d = [] ∧ meta_value md = Text (js "Missing"))
    ∧ (meta_status h1 = good ↔ num_eq (h1_count d) (num 1))
    ∧ meta_status h1 ≠ warn
    ∧ (meta_status og = good ↔ has_open_graph d = true) ∧ meta_status og ≠ bad
    ∧ (meta_status sm = good ↔ has_schema_markup d = true) ∧ meta_status sm ≠ bad.
Proof.
  unfold meta_items. do 6 eexists. split; [reflexivity|]. cbn [meta_status meta_value].
  repeat match goal with |- _ ∧ _ => split end.
  - destruct (title d); split; done.
  - destruct (title d); split; try done. by intros [? _].
  - destruct (ge (title_length d) (num 10)) eqn:H10;
      destruct (ge (num 70) (title_length d)) eqn:H70; cbn [andb];
      rewrite <- !ge_true_iff, H10, H70; split; try done; by intros [? ?].
  - by destruct (ge (title_length d) (num 10) && ge (num 70) (title_length d)).
  - destruct (meta_description d); split; done.
  - destruct (meta_description d); split; try done. by intros [? _].
  - destruct (h1_count d) as [q| |]; simpl; try (split; done).
    rewrite <- Qeq_bool_iff. destruct (Qeq_bool q (inject_Z 1)); split; done.
  - by destruct (num_eqb (h1_count d) (num 1)).
  - destruct (has_open_graph d); split; done.
  - by destruct (has_open_graph d).
  - destruct (has_schema_markup d); split; done.
  - by destruct (has_schema_markup d).
Qed.
